(** * monodepth2 (Oxford RobotCar fork): intrinsics, path resolution and
      the single-image inference driver

    A shallow embedding of [datasets/oxford_dataset.py] and
    [test_simple.py].

    Numbers.  Python [int]s are [Z].  A finite Python [float] or
    float32 array entry is the rational ([Q]) it denotes; infinities and
    nan are not represented.  The scalar expressions of the source
    ([+], [-], [*], true division [/] on Python [float]s) are read
    exactly, and module [Binary] evaluates them once more in IEEE 754
    binary64 and binary32 to see what rounding does to them.  The one
    float32 array product of the source, the metric scaling of lines 228
    and 233 of test_simple.py, is rounded as numpy rounds it (module
    [Ieee]).

    Strings are [string]; the dictionary [side_map] is a [gmap]. *)

From Stdlib Require Import ZArith QArith Qabs Qminmax Qround Qpower String Ascii List Lia Lqa.
From Stdlib Require Import SpecFloat.
From stdpp Require Import base option list strings gmap sorting pretty.

Local Open Scope Z_scope.
Local Open Scope string_scope.
Local Open Scope list_scope.

(** ** Results of fallible code *)

(** The Python exceptions the modelled code can raise. *)
Inductive exn : Type :=
  | KeyError (key : string)
  | IndexError
  | TypeError (msg : string)
  | AssertionError (msg : string)
  | NameError (name : string)
  | ValueError (msg : string)
  | Exception (msg : string)
  | ExternalError (what : string).

Inductive result (A : Type) : Type :=
  | Ok (a : A)
  | Raise (e : exn).
Arguments Ok {A} a.
Arguments Raise {A} e.

(** ** [os.path] (posixpath) *)

Module Posixpath.

Definition startswith (pre s : string) : bool := String.prefix pre s.

Fixpoint endswith_slash (s : string) : bool :=
  match s with
  | EmptyString => false
  | String c EmptyString => Ascii.eqb c "/"
  | String _ s' => endswith_slash s'
  end.

(** One step of the loop of [posixpath.join]:
<<
    if b.startswith(sep):            path = b
    elif not path or path.endswith(sep): path += b
    else:                            path += sep + b
>> *)
Definition join_step (path b : string) : string :=
  if startswith "/" b then b
  else if (String.eqb path "" || endswith_slash path)%bool then path +:+ b
  else path +:+ "/" +:+ b.

Definition join (a : string) (p : list string) : string :=
  fold_left join_step p a.

Fixpoint has_slash (s : string) : bool :=
  match s with
  | EmptyString => false
  | String c s' => (Ascii.eqb c "/" || has_slash s')%bool
  end.

(** [basename(p) = p[p.rfind('/') + 1:]]. *)
Fixpoint basename (p : string) : string :=
  match p with
  | EmptyString => EmptyString
  | String _ p' => if has_slash p then basename p' else p
  end.

(** [s.rfind(c)], [-1] when [c] does not occur. *)
Fixpoint rfind_from (c : ascii) (s : string) (i best : Z) : Z :=
  match s with
  | EmptyString => best
  | String d s' => rfind_from c s' (i + 1) (if Ascii.eqb d c then i else best)
  end.
Definition rfind (c : ascii) (s : string) : Z := rfind_from c s 0 (-1).

Fixpoint all_dots (s : string) : bool :=
  match s with
  | EmptyString => true
  | String c s' => (Ascii.eqb c "." && all_dots s')%bool
  end.

(** [genericpath._splitext(p, '/', None, '.')]: the extension starts at
    the last dot of the last component, unless that component has only
    dots before it. *)
Definition splitext (p : string) : string * string :=
  let sepIndex := rfind "/" p in
  let dotIndex := rfind "." p in
  if (sepIndex <? dotIndex)%Z &&
     negb (all_dots (substring (Z.to_nat (sepIndex + 1))
                               (Z.to_nat (dotIndex - (sepIndex + 1))) p))
  then (substring 0 (Z.to_nat dotIndex) p,
        substring (Z.to_nat dotIndex) (String.length p - Z.to_nat dotIndex) p)
  else (p, "").

End Posixpath.

(** ** datasets/oxford_dataset.py *)

Module OxfordDataset.

(** A crop window [(x0, y0, x1, y1)], as the tuple [self.crop_area]. *)
Definition crop_box : Type := Z * Z * Z * Z.

Definition box_x0 (b : crop_box) : Z := let '(x0, _, _, _) := b in x0.
Definition box_y0 (b : crop_box) : Z := let '(_, y0, _, _) := b in y0.
Definition box_x1 (b : crop_box) : Z := let '(_, _, x1, _) := b in x1.
Definition box_y1 (b : crop_box) : Z := let '(_, _, _, y1) := b in y1.

(** The local variables of [OXFORDDataset.__init__] (lines 28-54) that
    are printed or stored. *)
Record locals : Type := {
  l_width : Z;  l_height : Z;
  l_fx : Q;  l_fy : Q;
  l_crop_width : Z;  l_crop_height : Z;
  l_crop_ci : Q;  l_crop_cj : Q;
  l_crop_cx : Q;  l_crop_cy : Q
}.

(** Lines 28-54, with the literals of lines 28-35 and 46 as arguments. *)
Definition intrinsics_locals
    (width height : Z) (fx_px fy_px cx cy : Q) (crop_area : crop_box) : locals :=
  let fx := (fx_px / inject_Z width)%Q in
  let fy := (fy_px / inject_Z height)%Q in
  let crop_width := box_x1 crop_area - box_x0 crop_area in
  let crop_height := box_y1 crop_area - box_y0 crop_area in
  let crop_ci := (inject_Z (box_y1 crop_area) - (inject_Z crop_height / 2))%Q in
  let crop_cj := (inject_Z (box_x1 crop_area) - (inject_Z crop_width / 2))%Q in
  let crop_cx := (cx + inject_Z (crop_width - 1) / 2 - crop_cj)%Q in
  let crop_cy := (cy + inject_Z (crop_height - 1) / 2 - crop_ci)%Q in
  let crop_cx := (crop_cx / inject_Z width)%Q in
  let crop_cy := (crop_cy / inject_Z height)%Q in
  {| l_width := width; l_height := height; l_fx := fx; l_fy := fy;
     l_crop_width := crop_width; l_crop_height := crop_height;
     l_crop_ci := crop_ci; l_crop_cj := crop_cj;
     l_crop_cx := crop_cx; l_crop_cy := crop_cy |}.

(** Lines 56-59: the 4x4 matrix [self.K]. *)
Definition K_of (l : locals) : list (list Q) :=
  [ [l_fx l; 0; l_crop_cx l; 0];
    [0; l_fy l; l_crop_cy l; 0];
    [0; 0; 1; 0];
    [0; 0; 0; 1] ]%Q.

(** The literals of the source. *)
Definition width : Z := 1280.
Definition height : Z := 960.
Definition fx_px : Q := 983.044006.
Definition fy_px : Q := 983.044006.
Definition cx_px : Q := 643.646973.
Definition cy_px : Q := 493.378998.
Definition crop_area : crop_box := (0, 300, 1280, 760).

(** The attributes an [OXFORDDataset] instance carries.  [img_ext] is
    set by the base class [MonoDataset] (not part of this module) and
    is a constructor argument here. *)
Record dataset : Type := {
  ds_crop_area : crop_box;
  ds_K : list (list Q);
  ds_side_map : gmap string string;
  ds_img_ext : string
}.

Definition init_locals : locals :=
  intrinsics_locals width height fx_px fy_px cx_px cy_px crop_area.

(** [OXFORDDataset.__init__]. *)
Definition init (img_ext : string) : dataset :=
  {| ds_crop_area := crop_area;
     ds_K := K_of init_locals;
     ds_side_map := <["l" := "left"]> (<["r" := "right"]> ∅);
     ds_img_ext := img_ext |}.

(** Entry [(i, j)] of a matrix, [0] outside of it. *)
Definition entry (m : list (list Q)) (i j : nat) : Q :=
  default 0%Q (m !! i ≫= (.!! j)).

Definition K_fx (d : dataset) : Q := entry (ds_K d) 0 0.
Definition K_fy (d : dataset) : Q := entry (ds_K d) 1 1.
Definition K_cx (d : dataset) : Q := entry (ds_K d) 0 2.
Definition K_cy (d : dataset) : Q := entry (ds_K d) 1 2.

(** [OXFORDDataset.check_depth]. *)
Definition check_depth (d : dataset) : bool := false.

(** [OXFORDRAWDataset.get_image_path].  [frame_index] is the whole
    image name (a string); a missing key of [side_map] raises
    [KeyError]. *)
Definition get_image_path (d : dataset) (folder frame_index side : string)
    : result string :=
  let f_str := frame_index +:+ ds_img_ext d in
  match ds_side_map d !! side with
  | Some side_name => Ok (Posixpath.join folder [side_name; f_str])
  | None => Raise (KeyError side)
  end.

End OxfordDataset.

(** ** Python [str] helpers *)

Module Str.

(** [s.endswith(suf)]. *)
Definition endswith (suf s : string) : bool :=
  (String.length suf <=? String.length s)%nat &&
  String.eqb (substring (String.length s - String.length suf) (String.length suf) s) suf.

(** [sub in s]. *)
Fixpoint contains (sub s : string) : bool :=
  match s with
  | EmptyString => String.eqb sub ""
  | String _ s' => (String.prefix sub s || contains sub s')%bool
  end.

(** [s.split(' ')]: split at every single space, empty pieces kept. *)
Fixpoint split_space (s : string) : list string :=
  match s with
  | EmptyString => [""]
  | String c s' =>
      if Ascii.eqb c " " then "" :: split_space s'
      else match split_space s' with
           | w :: ws => String c w :: ws
           | [] => [String c ""]
           end
  end.

End Str.

(** ** Rounding to an IEEE 754 binary format *)

Module Ieee.

(** [floor (log2 |q|)], for [q <> 0]: the difference of the binary
    logarithms of numerator and denominator, lowered by one when the
    power of two it gives is above [|q|]. *)
Definition ilog2 (q : Q) : Z :=
  let l := Z.log2 (Z.abs (Qnum q)) - Z.log2 (Zpos (Qden q)) in
  if Qle_bool (2 ^ l) (Qabs q) then l else l - 1.

(** The nearest integer, ties to the even one. *)
Definition rne (q : Q) : Z :=
  let f := Qfloor q in
  match (q - inject_Z f ?= 1 # 2)%Q with
  | Lt => f
  | Gt => f + 1
  | Eq => if Z.even f then f else f + 1
  end.

(** Rounding to nearest, ties to even, in the binary format with
    [prec] significant bits and least exponent [emin]: the result is
    [m * 2^e] for the integer [m] nearest to [q / 2^e], where
    [e = max emin (floor (log2 |q|) - prec + 1)].  A result beyond the
    largest number of the format, which IEEE 754 turns into an infinity,
    is returned as it is. *)
Definition round (prec emin : Z) (q : Q) : Q :=
  let q := Qred q in
  if Qeq_bool q 0 then 0%Q
  else
    let e := Z.max emin (ilog2 q - prec + 1) in
    Qred (inject_Z (rne (q / 2 ^ e)) * 2 ^ e).

(** [np.float32] and Python [float]. *)
Definition float32 : Q -> Q := round 24 (-149).
Definition float64 : Q -> Q := round 53 (-1074).

End Ieee.

(** ** Arrays ([numpy] / [torch], two-dimensional) *)

Module Array.

(** A dense 2-D array, as its list of rows.  The batch and channel
    axes of size one of the disparity tensors are left out. *)
Abbreviation array := (list (list Q)).

Definition flatten (a : array) : list Q := concat a.

(** [(rows, columns)]; columns are those of the first row. *)
Definition dims (a : array) : Z * Z :=
  (Z.of_nat (length a), Z.of_nat (length (hd [] a))).

(** [a[i, j]]. *)
Definition item (a : array) (i j : nat) : option Q := a !! i ≫= (.!! j).

(** [f * a] for a Python scalar [f] and a float32 array [a] (lines 228
    and 233): numpy converts the scalar to float32 and rounds each
    product to float32. *)
Definition scale (f : Q) (a : array) : array :=
  map (map (fun d => Ieee.float32 (Ieee.float32 f * d))) a.

(** The number of axes of [t.squeeze()] for a tensor [t] of shape
    [(1, 1, rows, columns)]: those whose size is not one. *)
Definition squeezed_ndim (a : array) : nat :=
  let '(rows, columns) := dims a in
  ((if (rows =? 1)%Z then 0 else 1) + (if (columns =? 1)%Z then 0 else 1))%nat.

#[global] Instance Qle_rel_dec : RelDecision Qle :=
  fun x y => match Qlt_le_dec y x with
             | left H => right (Qlt_not_le _ _ H)
             | right H => left H
             end.

#[global] Instance Qle_total : Total Qle.
Proof.
  intros x y. destruct (Qlt_le_dec y x); [right; now apply Qlt_le_weak | now left].
Qed.

(** [a.min()]; numpy raises [ValueError] on an array without
    elements. *)
Definition amin (a : array) : result Q :=
  match flatten a with
  | [] => Raise (ValueError "zero-size array to reduction operation minimum which has no identity")
  | x :: xs => Ok (fold_left Qmin xs x)
  end.

(** [np.percentile(a, q)] with the default (linear) method: on the
    sorted flattened array [s] of [n] elements the virtual index is
    [q/100 * (n - 1)]; the result interpolates linearly between its
    two neighbours.  (For an array without elements numpy yields nan
    and the [min()] that follows in the caller raises; here the
    exception is raised at once.) *)
Definition percentile (a : array) (q : Q) : result Q :=
  let s := merge_sort Qle (flatten a) in
  let n := length s in
  let virtual_index := (q / 100 * (inject_Z (Z.of_nat n) - 1))%Q in
  let previous := Z.to_nat (Qfloor virtual_index) in
  let next := Nat.min (previous + 1) (n - 1) in
  let gamma := (virtual_index - inject_Z (Z.of_nat previous))%Q in
  match s !! previous, s !! next with
  | Some lo, Some hi => Ok (lo + (hi - lo) * gamma)%Q
  | _, _ => Raise (ValueError "percentile of an array without elements")
  end.

End Array.

(** ** Images ([PIL]) *)

Module Pil.

Definition pixel : Type := Z * Z * Z.
Definition black : pixel := (0, 0, 0).

(** An RGB image: its size and its pixel at column [x], row [y]. *)
Record image : Type := {
  im_width : Z;
  im_height : Z;
  im_px : Z -> Z -> pixel
}.

(** [im.size], as [(width, height)]. *)
Definition size (im : image) : Z * Z := (im_width im, im_height im).

Definition pixel_at (im : image) (x y : Z) : pixel :=
  if (0 <=? x)%Z && (x <? im_width im)%Z && (0 <=? y)%Z && (y <? im_height im)%Z
  then im_px im x y else black.

(** [im.crop((x0, y0, x1, y1))]: the region in the coordinates of [im];
    what lies outside of [im] is black, an inverted box gives an empty
    image. *)
Definition crop (im : image) (box : Z * Z * Z * Z) : image :=
  let '(x0, y0, x1, y1) := box in
  {| im_width := Z.max 0 (x1 - x0);
     im_height := Z.max 0 (y1 - y0);
     im_px := fun x y => pixel_at im (x + x0) (y + y0) |}.

Inductive filter : Type := NEAREST | BILINEAR | BICUBIC | LANCZOS.

End Pil.

(** ** test_simple.py *)

Module TestSimple.

Import Array Pil.

Definition test_files_dir : string := "/home/radice/neuralNetworks/monodepth2/splits".
Definition kitti_path : string := "/home/radice/neuralNetworks/results/monodepth2/KITTI/".
Definition oxford_path : string := "/home/radice/neuralNetworks/results/monodepth2/OXFORD/".

(** [--dataset] is required and has [choices=['KITTI', 'OXFORD']]. *)
Inductive dataset_kind : Type := KITTI | OXFORD.

(** The namespace returned by [parse_args].  [model_name] is not
    required, hence optional; [crop_area] is a 4-tuple as its default
    is. *)
Record args : Type := {
  image_path : string;
  model_name : option string;
  ext : string;
  no_cuda : bool;
  pred_metric_depth : bool;
  dataset : dataset_kind;
  model : string;
  dataset_run : string;
  use_test_set : bool;
  crop_area : Z * Z * Z * Z;
  resnet : Z
}.

Inductive device : Type := Cuda | Cpu.

(** An image tensor in [ToTensor]'s layout: channel, row, column. *)
Record tensor : Type := {
  t_height : Z;
  t_width : Z;
  t_at : Z -> Z -> Z -> Q
}.

Definition channel (c : Z) (p : pixel) : Z :=
  let '(r, g, b) := p in
  if (c =? 0)%Z then r else if (c =? 1)%Z then g else b.

(** [transforms.ToTensor()(im).unsqueeze(0)]. *)
Definition ToTensor (im : image) : tensor :=
  {| t_height := im_height im;
     t_width := im_width im;
     t_at := fun c y x => (inject_Z (channel c (pixel_at im x y)) / 255)%Q |}.

Inductive interpolation_mode : Type := Nearest | Bilinear | Bicubic.

(** What [print] receives. *)
Inductive pyval : Type :=
  | PStr (s : string)
  | PInt (z : Z)
  | PFloat (q : Q).

(** [mpl.colors.Normalize(vmin, vmax)]. *)
Record Normalize : Type := { vmin : Q; vmax : Q }.

(** [Normalize.__call__] on one value ([clip] is off by default).
    matplotlib rejects [vmin > vmax]; with a minimum and a percentile of
    one array that does not arise (lemma [amin_le_percentile]). *)
Definition normalize (n : Normalize) (x : Q) : Q :=
  if Qeq_bool (vmin n) (vmax n) then 0%Q
  else ((x - vmin n) / (vmax n - vmin n))%Q.

(** The observable effects, in program order. *)
Inductive event : Type :=
  | Print (items : list pyval)
  | Makedirs (path : string)
  | NpSave (path : string) (a : array)
  | ImSave (path : string) (im : list (list pixel)).

(** The collaborators of [test_simple] outside of this file: the file
    system, [torch], [networks], [layers], [utils], [evaluate_depth]
    and [matplotlib].  The files read are those present when the run
    starts. *)
Record runtime : Type := {
  features : Type;
  cuda_is_available : bool;
  download_model_if_doesnt_exist : string -> result unit;
  (** [networks.ResnetEncoder(n, False)] loaded from a checkpoint:
      the trained height and width and the forward pass. *)
  load_encoder : Z -> string -> device -> result (Z * Z * (tensor -> features));
  (** [networks.DepthDecoder] loaded from a checkpoint; the forward
      pass followed by [outputs[("disp", 0)]]. *)
  load_depth_decoder : string -> device -> result (features -> array);
  isfile : string -> bool;
  isdir : string -> bool;
  readlines : string -> result (list string);
  (** [pil.open(path).convert('RGB')]. *)
  pil_open : string -> result image;
  (** The pixels of [im.resize(size, filter)]. *)
  resample : image -> Z * Z -> filter -> Z -> Z -> pixel;
  (** [torch.nn.functional.interpolate(t, size, mode=, align_corners=)]
      with [size = (height, width)]. *)
  interpolate : array -> Z * Z -> interpolation_mode -> bool -> array;
  (** [layers.disp_to_depth(disp, min_depth, max_depth)]. *)
  disp_to_depth : array -> Q -> Q -> array * array;
  (** [evaluate_depth.STEREO_SCALE_FACTOR]. *)
  STEREO_SCALE_FACTOR : Q;
  (** A matplotlib colormap by name, as RGBA in [0, 1]. *)
  cmap : string -> Q -> Q * Q * Q * Q
}.

(** [im.resize((width, height), filter)]. *)
Definition resize (rt : runtime) (im : image) (sz : Z * Z) (f : filter) : image :=
  {| im_width := fst sz; im_height := snd sz; im_px := resample rt im sz f |}.

(** [astype(np.uint8)] of a float. *)
Definition uint8 (q : Q) : Z :=
  (if Qle_bool 0 q then Qfloor q else Qceiling q) mod 256.

(** [(mapper.to_rgba(a)[:, :, :3] * 255).astype(np.uint8)] for
    [mapper = cm.ScalarMappable(norm=n, cmap=name)]. *)
Definition colormapped (rt : runtime) (n : Normalize) (name : string) (a : array)
    : list (list pixel) :=
  map (map (fun x =>
    let '(r, g, b, _) := cmap rt name (normalize n x) in
    (uint8 (r * 255), uint8 (g * 255), uint8 (b * 255)))) a.

(** *** Effects: a trace of events and an exception or a value *)

Definition M (A : Type) : Type := result A * list event.

#[global] Instance M_ret : MRet M := fun A a => (Ok a, []).
#[global] Instance M_bind : MBind M := fun A B f m =>
  match m with
  | (Ok a, t) => let '(r, t') := f a in (r, t ++ t')
  | (Raise e, t) => (Raise e, t)
  end.

Definition raise {A : Type} (e : exn) : M A := (Raise e, []).
Definition lift {A : Type} (r : result A) : M A := (r, []).
Definition emit (e : event) : M unit := (Ok tt, [e]).
Definition print (items : list pyval) : M unit := emit (Print items).
Definition when (b : bool) (m : M unit) : M unit := if b then m else mret tt.

(** [l[i]]. *)
Definition index {A : Type} (l : list A) (i : nat) : M A :=
  match l !! i with
  | Some x => mret x
  | None => raise IndexError
  end.

(** [d[k]]. *)
Definition getitem {V : Type} (d : gmap string V) (k : string) : M V :=
  match d !! k with
  | Some v => mret v
  | None => raise (KeyError k)
  end.

(** [for x in l: acc = body(acc, x)]. *)
Fixpoint for_fold {A S : Type} (body : S -> A -> M S) (acc : S) (l : list A) : M S :=
  match l with
  | [] => mret acc
  | x :: l' => acc' ← body acc x; for_fold body acc' l'
  end.

(** [for idx, x in enumerate(l): body(idx, x)], counting from [idx]. *)
Fixpoint for_enumerate {A : Type} (body : nat -> A -> M unit) (idx : nat) (l : list A)
    : M unit :=
  match l with
  | [] => mret tt
  | x :: l' => body idx x;; for_enumerate body (S idx) l'
  end.

(** *** The prediction loop body (lines 193-256) *)

(** The local variables of one iteration. *)
Record frame : Type := {
  f_input_image : image;        (* after the crop, before the resize *)
  f_original_width : Z;
  f_original_height : Z;
  f_network_input : tensor;
  f_disp : array;
  f_disp_resized : array;
  f_output_name : string;
  f_scaled_disp : array;
  f_depth : array;
  f_name_dest_npy : string;
  f_normalizer : Normalize;
  f_name_dest_im : string
}.

(** One iteration; [None] is the [continue] of line 197.
    [args.dataset] is one of its two choices, so exactly one of the
    two [if]s on it runs each time: they are a [match] here.

    Line 242 squeezes the resized disparity, of shape
    [(1, 1, height, width)].  When height and width are both larger
    than one the result has two axes and line 246 goes through.  When
    one of them is one it has a single axis, [to_rgba] returns an array
    with two axes and the index [[:, :, :3]] raises [IndexError].  When
    both are one it has no axis, [to_rgba] returns a tuple and that
    index raises [TypeError]. *)
Definition predict_image (rt : runtime) (a : args)
    (feed_width feed_height : Z)
    (encoder : tensor -> features rt) (depth_decoder : features rt -> array)
    (output_directory : string) (n_paths : nat)
    (idx : nat) (image_path : string) : M (option frame) :=
  if Str.endswith "_disp.jpg" image_path then mret None
  else
    input_image ← lift (pil_open rt image_path);
    let input_image :=
      match dataset a with
      | OXFORD => crop input_image (crop_area a)
      | KITTI => input_image
      end in
    let cropped := input_image in
    let '(original_width, original_height) := size input_image in
    let input_image := resize rt input_image (feed_width, feed_height) LANCZOS in
    let input_image := ToTensor input_image in
    let features := encoder input_image in
    let disp := depth_decoder features in
    let disp_resized :=
      interpolate rt disp (original_height, original_width) Bilinear false in
    let output_name := fst (Posixpath.splitext (Posixpath.basename image_path)) in
    let '(scaled_disp, depth) := disp_to_depth rt disp 0.1%Q 100%Q in
    name_dest_npy ←
      (if pred_metric_depth a then
         let name_dest_npy :=
           Posixpath.join output_directory [output_name +:+ "_depth.npy"] in
         metric_depth ←
           match dataset a with
           | KITTI =>
               print [PStr "-> KITTI STEREO_SCALE_FACTOR"; PFloat (STEREO_SCALE_FACTOR rt)];;
               mret (scale (STEREO_SCALE_FACTOR rt) depth)
           | OXFORD =>
               let oxford_baseline := 0.24%Q in
               let stereo_scale_factor := (oxford_baseline / 0.1)%Q in
               let metric_depth := scale stereo_scale_factor depth in
               print [PStr "-> OXFORD STEREO_SCALE_FACTOR"; PFloat stereo_scale_factor];;
               mret metric_depth
           end;
         emit (NpSave name_dest_npy metric_depth);;
         mret name_dest_npy
       else
         let name_dest_npy :=
           Posixpath.join output_directory [output_name +:+ "_disp.npy"] in
         emit (NpSave name_dest_npy scaled_disp);;
         mret name_dest_npy);
    let disp_resized_np := disp_resized in
    vmax ← lift (percentile disp_resized_np 95%Q);
    vmin ← lift (amin disp_resized_np);
    let normalizer := Build_Normalize vmin vmax in
    colormapped_im ←
      match squeezed_ndim disp_resized with
      | 2%nat => mret (colormapped rt normalizer "magma" disp_resized_np)
      | 1%nat => raise IndexError
      | _ => raise (TypeError "tuple indices must be integers or slices, not tuple")
      end;
    let name_dest_im :=
      Posixpath.join output_directory [output_name +:+ "_disp.jpeg"] in
    emit (ImSave name_dest_im colormapped_im);;
    print [PStr ("   Processed " +:+ pretty (idx + 1)%nat +:+ " of " +:+ pretty n_paths
                 +:+ " images - saved predictions to:")];;
    print [PStr ("   - " +:+ name_dest_im)];;
    print [PStr ("   - " +:+ name_dest_npy)];;
    mret (Some {| f_input_image := cropped;
                  f_original_width := original_width;
                  f_original_height := original_height;
                  f_network_input := input_image;
                  f_disp := disp;
                  f_disp_resized := disp_resized;
                  f_output_name := output_name;
                  f_scaled_disp := scaled_disp;
                  f_depth := depth;
                  f_name_dest_npy := name_dest_npy;
                  f_normalizer := normalizer;
                  f_name_dest_im := name_dest_im |}).

(** *** Finding the input images (lines 148-187) *)

(** One line of a KITTI split file (line 174).  The side table maps
    to integers there, and [os.path.join] refuses an [int]. *)
Definition kitti_test_path (side_map : gmap string Z) (paths : list string)
    (file : string) : M (list string) :=
  let splitted := Str.split_space file in
  folder ← index splitted 0;
  s ← index splitted 2;
  side ← getitem side_map s;
  name ← index splitted 1;
  raise (TypeError "join() argument must be str, bytes, or os.PathLike object, not 'int'").

(** One line of an Oxford split file (line 185). *)
Definition oxford_test_path (side_map : gmap string string) (paths : list string)
    (file : string) : M (list string) :=
  let splitted := Str.split_space file in
  folder ← index splitted 0;
  s ← index splitted 2;
  side ← getitem side_map s;
  name ← index splitted 1;
  mret (paths ++ [Posixpath.join folder [side; name +:+ ".jpg"]]).

Definition find_paths (rt : runtime) (a : args) : M (list string) :=
  if isfile rt (image_path a) then mret [image_path a]
  else if isdir rt (image_path a) then
    let paths := [] in
    match dataset a with
    | KITTI =>
        if use_test_set a then
          let side_map : gmap string Z :=
            <["2" := 2]> (<["3" := 3]> (<["l" := 2]> (<["r" := 3]> ∅))) in
          let test_file_path :=
            Posixpath.join test_files_dir ["eigen"; "test_files.txt"] in
          train_filenames ← lift (readlines rt test_file_path);
          for_fold (kitti_test_path side_map) paths train_filenames
        else mret paths
    | OXFORD =>
        if use_test_set a then
          let side_map : gmap string string :=
            <["l" := "left"]> (<["r" := "right"]> ∅) in
          let test_file_path :=
            Posixpath.join test_files_dir ["oxford"; "test_files.txt"] in
          train_filenames ← lift (readlines rt test_file_path);
          for_fold (oxford_test_path side_map) paths train_filenames
        else mret paths
    end
  else raise (Exception ("Can not find args.image_path: " +:+ image_path a)).

(** *** [test_simple] *)

Definition warning : string :=
  "Warning: The --pred_metric_depth flag only makes sense for stereo-trained KITTI models. For mono-trained models, output depths will not in metric space.".

(** Lines 100-258: everything after the warning. *)
Definition run_model (rt : runtime) (a : args) (model_name : string) (dev : device)
    : M unit :=
  lift (download_model_if_doesnt_exist rt model_name);;
  let model_path := Posixpath.join "models" [model_name] in
  print [PStr "-> Loading model from "; PStr model_path];;
  let encoder_path := Posixpath.join model_path ["encoder.pth"] in
  let depth_decoder_path := Posixpath.join model_path ["depth.pth"] in
  print [PStr "   Loading pretrained encoder"];;
  num_layers ←
    (if (resnet a =? 18)%Z then mret 18%Z
     else if (resnet a =? 50)%Z then mret 50%Z
     else raise (Exception ("Can not find resnet " +:+ pretty (resnet a))));
  loaded ← lift (load_encoder rt num_layers encoder_path dev);
  let '(feed_height, feed_width, encoder) := loaded in
  print [PStr "   Loading pretrained decoder"];;
  depth_decoder ← lift (load_depth_decoder rt depth_decoder_path dev);
  let folder := model a in
  let run := dataset_run a in
  let output_directory :=
    match dataset a with
    | KITTI => Posixpath.join kitti_path [folder; run]
    | OXFORD => Posixpath.join oxford_path [folder; run]
    end in
  when (negb (isdir rt output_directory)) (emit (Makedirs output_directory));;
  paths ← find_paths rt a;
  print [PStr ("-> Predicting on " +:+ pretty (length paths) +:+ " test images")];;
  for_enumerate
    (fun idx image_path =>
       predict_image rt a feed_width feed_height encoder depth_decoder
                     output_directory (length paths) idx image_path;;
       mret tt)
    0%nat paths;;
  print [PStr "-> Done!"].

Definition test_simple (rt : runtime) (a : args) : M unit :=
  model_name ←
    match model_name a with
    | Some m => mret m
    | None => raise (AssertionError
        "You must specify the --model_name parameter; see README.md for an example")
    end;
  let dev := if cuda_is_available rt && negb (no_cuda a) then Cuda else Cpu in
  when (pred_metric_depth a && negb (Str.contains "stereo" model_name))
       (print [PStr warning]);;
  run_model rt a model_name dev.

(** *** One iteration in closed form *)

(** The array an iteration saves with [np.save]. *)
Definition numeric_array (rt : runtime) (a : args) (f : frame) : array :=
  if pred_metric_depth a then
    match dataset a with
    | KITTI => scale (STEREO_SCALE_FACTOR rt) (f_depth f)
    | OXFORD => scale (0.24 / 0.1)%Q (f_depth f)
    end
  else f_scaled_disp f.

(** What an iteration prints before [np.save]. *)
Definition scale_factor_prints (rt : runtime) (a : args) : list event :=
  if pred_metric_depth a then
    match dataset a with
    | KITTI => [Print [PStr "-> KITTI STEREO_SCALE_FACTOR"; PFloat (STEREO_SCALE_FACTOR rt)]]
    | OXFORD => [Print [PStr "-> OXFORD STEREO_SCALE_FACTOR"; PFloat (0.24 / 0.1)%Q]]
    end
  else [].

(** The events of an iteration that ends with the locals [f]. *)
Definition frame_events (rt : runtime) (a : args) (n_paths idx : nat) (f : frame)
    : list event :=
  scale_factor_prints rt a ++
  [ NpSave (f_name_dest_npy f) (numeric_array rt a f);
    ImSave (f_name_dest_im f)
           (colormapped rt (f_normalizer f) "magma" (f_disp_resized f));
    Print [PStr ("   Processed " +:+ pretty (idx + 1)%nat +:+ " of " +:+ pretty n_paths
                 +:+ " images - saved predictions to:")];
    Print [PStr ("   - " +:+ f_name_dest_im f)];
    Print [PStr ("   - " +:+ f_name_dest_npy f)] ].

(** The image an iteration feeds to the resize: the opened image,
    cropped for [OXFORD]. *)
Definition cropped_input (a : args) (img : image) : image :=
  match dataset a with
  | OXFORD => crop img (crop_area a)
  | KITTI => img
  end.

(** The runtime [rt] with another [interpolate]. *)
Definition with_interpolate (rt : runtime)
    (g : array -> Z * Z -> interpolation_mode -> bool -> array) : runtime :=
  {| features := features rt;
     cuda_is_available := cuda_is_available rt;
     download_model_if_doesnt_exist := download_model_if_doesnt_exist rt;
     load_encoder := load_encoder rt;
     load_depth_decoder := load_depth_decoder rt;
     isfile := isfile rt;
     isdir := isdir rt;
     readlines := readlines rt;
     pil_open := pil_open rt;
     resample := resample rt;
     interpolate := g;
     disp_to_depth := disp_to_depth rt;
     STEREO_SCALE_FACTOR := STEREO_SCALE_FACTOR rt;
     cmap := cmap rt |}.

(** The collaborators work on a run over one image file: the model
    downloads and loads with feed size [feed_width] x [feed_height], the
    path is a file that opens as [img], and the disparity interpolated
    for it has an element and more than one row and column. *)
Definition single_image_setup (rt : runtime) (a : args) (name : string)
    (feed_height feed_width : Z)
    (encoder : tensor -> features rt) (depth_decoder : features rt -> array)
    (img : image) : Prop :=
  let dev := if cuda_is_available rt && negb (no_cuda a) then Cuda else Cpu in
  let model_path := Posixpath.join "models" [name] in
  let input := cropped_input a img in
  let disp :=
    depth_decoder (encoder (ToTensor (resize rt input (feed_width, feed_height) LANCZOS))) in
  download_model_if_doesnt_exist rt name = Ok tt /\
  (resnet a = 18 \/ resnet a = 50) /\
  load_encoder rt (resnet a) (Posixpath.join model_path ["encoder.pth"]) dev
    = Ok (feed_height, feed_width, encoder) /\
  load_depth_decoder rt (Posixpath.join model_path ["depth.pth"]) dev
    = Ok depth_decoder /\
  isfile rt (image_path a) = true /\
  Str.endswith "_disp.jpg" (image_path a) = false /\
  pil_open rt (image_path a) = Ok img /\
  flatten (interpolate rt disp (im_height input, im_width input) Bilinear false) <> [] /\
  squeezed_ndim (interpolate rt disp (im_height input, im_width input) Bilinear false)
    = 2%nat.

(** The [.npy] files written, in order. *)
Definition npy_saves (t : list event) : list (string * array) :=
  omap (fun e => match e with NpSave p x => Some (p, x) | _ => None end) t.

(** The image files written, in order. *)
Definition image_saves (t : list event) : list (string * list (list pixel)) :=
  omap (fun e => match e with ImSave p x => Some (p, x) | _ => None end) t.

End TestSimple.

(** ** The constants of the source in IEEE 754 arithmetic *)

Module Binary.

Record format : Type := { prec : Z; emax : Z }.

(** Python [float] and [np.float32]. *)
Definition binary64 : format := {| prec := 53; emax := 1024 |}.
Definition binary32 : format := {| prec := 24; emax := 128 |}.

Definition of_Z (fmt : format) (z : Z) : spec_float :=
  binary_normalize (prec fmt) (emax fmt) z 0 false.

Definition div (fmt : format) : spec_float -> spec_float -> spec_float :=
  SFdiv (prec fmt) (emax fmt).

Definition mul (fmt : format) : spec_float -> spec_float -> spec_float :=
  SFmul (prec fmt) (emax fmt).

(** The binary64 number nearest to the decimal literal [m * 10^-k]
    (for [m] and [10^k] below [2^53], where both are exact and one
    correctly rounded division gives it). *)
Definition literal (m k : Z) : spec_float :=
  div binary64 (of_Z binary64 m) (of_Z binary64 (10 ^ k)).

(** Conversion of a number to another format ([dtype=np.float32]). *)
Definition round_to (fmt : format) (x : spec_float) : spec_float :=
  match x with
  | S754_finite s m e =>
      binary_normalize (prec fmt) (emax fmt) (cond_Zopp s (Zpos m)) e s
  | _ => x
  end.

(** The rational a finite number stands for. *)
Definition to_Q (x : spec_float) : Q :=
  match x with
  | S754_finite s m e =>
      (inject_Z (cond_Zopp s (Zpos m)) *
       (if (0 <=? e)%Z then inject_Z (2 ^ e) else 1 # Pos.pow 2 (Z.to_pos (- e))))%Q
  | _ => 0%Q
  end.

(** Lines 30-33 of oxford_dataset.py in binary64, then the conversion of
    line 59 to [np.float32]. *)
Definition K_fx : spec_float :=
  round_to binary32 (div binary64 (literal 983044006 6) (of_Z binary64 1280)).
Definition K_fy : spec_float :=
  round_to binary32 (div binary64 (literal 983044006 6) (of_Z binary64 960)).

(** Lines 231-232 of test_simple.py in binary64. *)
Definition stereo_scale_factor : spec_float :=
  let oxford_baseline := literal 24 2 in
  div binary64 oxford_baseline (literal 1 1).

(** Line 233 for one entry [d] of the float32 array [depth]: the Python
    scalar is converted to the type of the array, the product is a
    float32 product. *)
Definition metric_depth (d : spec_float) : spec_float :=
  mul binary32 (round_to binary32 stereo_scale_factor) d.

End Binary.

(** ** A small concrete runtime, for running the model on examples *)

Module Demo.
Import Array Pil TestSimple.

(** A [width] x [height] test image. *)
Definition gradient (w h : Z) : image :=
  {| im_width := w; im_height := h;
     im_px := fun x y => ((16 * x + y) mod 256, (16 * y) mod 256, 0) |}.

Definition nearest_rows {A : Type} (d : A) (l : list A) (n : Z) : list A :=
  map (fun i => nth (Z.to_nat (Z.of_nat i * Z.of_nat (length l) / n)) l d)
      (seq 0 (Z.to_nat n)).

(** Nearest-neighbour resampling of an array to [(h, w)]. *)
Definition nearest (a : array) (sz : Z * Z) : array :=
  map (fun row => nearest_rows 0%Q row (snd sz)) (nearest_rows [] a (fst sz)).

(** The red channel of an image tensor, as an array. *)
Definition red (t : tensor) : array :=
  map (fun y => map (fun x => t_at t 0 (Z.of_nat y) (Z.of_nat x))
                    (seq 0 (Z.to_nat (t_width t))))
      (seq 0 (Z.to_nat (t_height t))).

(** The transform of upstream monodepth2's [layers.disp_to_depth]. *)
Definition upstream_disp_to_depth (disp : array) (min_depth max_depth : Q)
    : array * array :=
  let min_disp := (1 / max_depth)%Q in
  let max_disp := (1 / min_depth)%Q in
  let scaled_disp := map (map (fun d => Qred (min_disp + (max_disp - min_disp) * d)%Q)) disp in
  (scaled_disp, map (map (fun s => Qred (1 / s)%Q)) scaled_disp).

Definition grey (v : Q) : Q * Q * Q * Q :=
  let c := Qmax 0 (Qmin 1 v) in (c, c, c, 1%Q).

Definition rt : runtime :=
  {| features := tensor;
     cuda_is_available := false;
     download_model_if_doesnt_exist := fun _ => Ok tt;
     load_encoder := fun _ _ _ => Ok (2, 4, fun t => t);
     load_depth_decoder := fun _ _ => Ok red;
     isfile := fun p => String.eqb p "/data/left/0001.jpg";
     isdir := fun _ => false;
     readlines := fun _ => Raise (ExternalError "no such file");
     pil_open := fun _ => Ok (gradient 8 6);
     resample := fun im sz _ x y =>
       pixel_at im (x * im_width im / fst sz) (y * im_height im / snd sz);
     interpolate := fun a sz _ _ => nearest a sz;
     disp_to_depth := upstream_disp_to_depth;
     STEREO_SCALE_FACTOR := 5.4%Q;
     cmap := fun _ => grey |}.

Definition args_of (kind : dataset_kind) (name : string) (metric : bool) : args :=
  {| image_path := "/data/left/0001.jpg";
     model_name := Some name;
     ext := "jpg";
     no_cuda := false;
     pred_metric_depth := metric;
     dataset := kind;
     model := "m";
     dataset_run := "r";
     use_test_set := false;
     crop_area := (0, 1, 8, 5);
     resnet := 18 |}.

(** A decoder that returns the disparity [d] whatever its input. *)
Definition constant (d : array) : tensor -> array := fun _ => d.

(** A disparity that [upstream_disp_to_depth] turns into the depths 10
    and 100. *)
Definition disp_10_100 : array :=
  [[1 # 111; 0; 1 # 111; 0]; [0; 1 # 111; 0; 1 # 111]]%Q.

(** A disparity with one entry far above the others. *)
Definition spike : array := [[0.2; 0.1; 0.3; 0.1]; [0.1; 0.9; 0.2; 0.1]]%Q.

(** Arguments for [OXFORD] with the crop window [box]. *)
Definition args_crop (box : Z * Z * Z * Z) (metric : bool) : args :=
  {| image_path := "/data/left/0001.jpg";
     model_name := Some "oxford";
     ext := "jpg";
     no_cuda := false;
     pred_metric_depth := metric;
     dataset := OXFORD;
     model := "m";
     dataset_run := "r";
     use_test_set := false;
     crop_area := box;
     resnet := 18 |}.

(** One iteration on that runtime: feed resolution 4x2, output directory
    [/out], the only image of a run. *)
Definition iteration (kind : dataset_kind) (metric : bool) : M (option frame) :=
  predict_image rt (args_of kind "oxford" metric) 4 2 (fun t => t) red
                "/out" 1 0 "/data/left/0001.jpg".

End Demo.

(** ** [OXFORDDataset.get_color] *)

Module OxfordLoader.

Import OxfordDataset Pil.

(** [get_color].  [self.loader] and [self.transform] are attributes set
    by the base class [MonoDataset]; [do_flip] is not used (the flip of
    lines 92-93 is commented out). *)
Definition get_color (d : dataset)
    (loader : string -> result image)
    (transform : option (image -> crop_box -> image))
    (folder frame_index side : string) (do_flip : bool) : result image :=
  match get_image_path d folder frame_index side with
  | Raise e => Raise e
  | Ok path =>
      match loader path with
      | Raise e => Raise e
      | Ok color =>
          Ok match transform with
             | Some tr => tr color (ds_crop_area d)
             | None => color
             end
      end
  end.

End OxfordLoader.

(** ** Runs over several images *)

Module Batch.

Import Array Pil TestSimple.

(** The prediction loop of [run_model] (lines 193-256) on [paths],
    counting from [idx], with [n_paths] the number shown in its
    messages. *)
Definition predict_loop (rt : runtime) (a : args) (feed_width feed_height : Z)
    (encoder : tensor -> features rt) (depth_decoder : features rt -> array)
    (output_directory : string) (n_paths idx : nat) (paths : list string) : M unit :=
  for_enumerate
    (fun idx image_path =>
       predict_image rt a feed_width feed_height encoder depth_decoder
                     output_directory n_paths idx image_path;;
       mret tt)
    idx paths.

(** An image path that is not skipped, opens, and gets a disparity with
    an element and more than one row and column. *)
Definition frame_ready (rt : runtime) (a : args) (feed_width feed_height : Z)
    (encoder : tensor -> features rt) (depth_decoder : features rt -> array)
    (image_path : string) : Prop :=
  Str.endswith "_disp.jpg" image_path = false /\
  exists img,
    pil_open rt image_path = Ok img /\
    let input := cropped_input a img in
    let disp :=
      depth_decoder (encoder (ToTensor (resize rt input (feed_width, feed_height) LANCZOS))) in
    flatten (interpolate rt disp (im_height input, im_width input) Bilinear false) <> [] /\
    squeezed_ndim (interpolate rt disp (im_height input, im_width input) Bilinear false)
      = 2%nat.

(** [output_name] of line 221. *)
Definition stem (image_path : string) : string :=
  fst (Posixpath.splitext (Posixpath.basename image_path)).

(** The names of the two files an iteration writes. *)
Definition npy_name (a : args) (output_directory image_path : string) : string :=
  Posixpath.join output_directory
    [stem image_path +:+ (if pred_metric_depth a then "_depth.npy" else "_disp.npy")].

Definition im_name (output_directory image_path : string) : string :=
  Posixpath.join output_directory [stem image_path +:+ "_disp.jpeg"].

(** The paths the loop does not skip (line 195). *)
Definition processed (paths : list string) : list string :=
  List.filter (fun p => negb (Str.endswith "_disp.jpg" p)) paths.

Fixpoint no_space (s : string) : bool :=
  match s with
  | EmptyString => true
  | String c s' => negb (Ascii.eqb c " ") && no_space s'
  end.

(** [c] does not occur in [s]. *)
Fixpoint lacks (c : ascii) (s : string) : bool :=
  match s with
  | EmptyString => true
  | String d s' => negb (Ascii.eqb d c) && lacks c s'
  end.

(** A line [folder frame_index side] of a split file. *)
Definition split_line (l : string * string * string) : string :=
  let '(folder, frame_index, side) := l in
  folder +:+ " " +:+ frame_index +:+ " " +:+ side.

(** A split-file entry the Oxford path finder accepts. *)
Definition oxford_entry_ok (l : string * string * string) : Prop :=
  let '(folder, frame_index, side) := l in
  no_space folder = true /\ no_space frame_index = true /\
  (side = "l" \/ side = "r").

(** The image path of a split-file entry (line 185). *)
Definition oxford_entry_path (l : string * string * string) : string :=
  let '(folder, frame_index, side) := l in
  Posixpath.join folder
    [if String.eqb side "l" then "left" else "right"; frame_index +:+ ".jpg"].

(** The model named [name] downloads and loads: feed size
    [feed_width] x [feed_height], forward passes [encoder] and
    [depth_decoder]. *)
Definition model_loads (rt : runtime) (a : args) (name : string)
    (feed_height feed_width : Z)
    (encoder : tensor -> features rt) (depth_decoder : features rt -> array) : Prop :=
  let dev := if cuda_is_available rt && negb (no_cuda a) then Cuda else Cpu in
  let model_path := Posixpath.join "models" [name] in
  download_model_if_doesnt_exist rt name = Ok tt /\
  (resnet a = 18 \/ resnet a = 50) /\
  load_encoder rt (resnet a) (Posixpath.join model_path ["encoder.pth"]) dev
    = Ok (feed_height, feed_width, encoder) /\
  load_depth_decoder rt (Posixpath.join model_path ["depth.pth"]) dev
    = Ok depth_decoder.

(** [output_directory] of lines 138-146. *)
Definition output_directory_of (a : args) : string :=
  match dataset a with
  | KITTI => Posixpath.join kitti_path [model a; dataset_run a]
  | OXFORD => Posixpath.join oxford_path [model a; dataset_run a]
  end.

(** What a run prints and does while it loads the model and makes the
    output directory (lines 100-146). *)
Definition loading_events (rt : runtime) (a : args) (name : string) : list event :=
  [Print [PStr "-> Loading model from "; PStr (Posixpath.join "models" [name])];
   Print [PStr "   Loading pretrained encoder"];
   Print [PStr "   Loading pretrained decoder"]]
  ++ (if isdir rt (output_directory_of a) then []
      else [Makedirs (output_directory_of a)]).

(** The small runtime of [Demo] on a directory whose split files hold
    [lines]; a path that ends in [missing.jpg] does not open. *)
Definition directory_runtime (lines : list string) : runtime :=
  {| features := tensor;
     cuda_is_available := false;
     download_model_if_doesnt_exist := fun _ => Ok tt;
     load_encoder := fun _ _ _ => Ok (2, 4, fun t => t);
     load_depth_decoder := fun _ _ => Ok Demo.red;
     isfile := fun _ => false;
     isdir := fun p => String.eqb p "/data";
     readlines := fun _ => Ok lines;
     pil_open := fun p =>
       if Str.endswith "missing.jpg" p then Raise (ExternalError "cannot open")
       else Ok (Demo.gradient 8 6);
     resample := resample Demo.rt;
     interpolate := interpolate Demo.rt;
     disp_to_depth := disp_to_depth Demo.rt;
     STEREO_SCALE_FACTOR := STEREO_SCALE_FACTOR Demo.rt;
     cmap := cmap Demo.rt |}.

Definition directory_args (path : string) (kind : dataset_kind) (test_set : bool)
    (layers : Z) : args :=
  {| image_path := path;
     model_name := Some "oxford";
     ext := "jpg";
     no_cuda := false;
     pred_metric_depth := false;
     dataset := kind;
     model := "m";
     dataset_run := "r";
     use_test_set := test_set;
     crop_area := (0, 1, 8, 5);
     resnet := layers |}.

End Batch.

(** * Properties *)

Import OxfordDataset.

(** ** Intrinsics (datasets/oxford_dataset.py) *)

(** The midpoint of a crop window. *)
Definition geometric_center (b : crop_box) : Q * Q :=
  ((inject_Z (box_x0 b) + inject_Z (box_x1 b)) / 2,
   (inject_Z (box_y0 b) + inject_Z (box_y1 b)) / 2)%Q.

(** All four intrinsics of a dataset lie in [[0, 1]]. *)
Definition intrinsics_in_unit_interval (d : dataset) : Prop :=
  (0 <= K_fx d <= 1 /\ 0 <= K_fy d <= 1 /\ 0 <= K_cx d <= 1 /\ 0 <= K_cy d <= 1)%Q.

(** [lra] after turning divisions by constants into products. *)
Ltac qlra := unfold Qdiv in *; cbn [Qinv Qnum Qden] in *; lra.

Section Calibrator.

Variables (W H : Z) (fxp fyp cxp cyp : Q).

Let locals_of (b : crop_box) : locals := intrinsics_locals W H fxp fyp cxp cyp b.

Lemma crop_extent (b : crop_box) :
  l_crop_width (locals_of b) = box_x1 b - box_x0 b /\
  l_crop_height (locals_of b) = box_y1 b - box_y0 b.
Proof. split; reflexivity. Qed.

Lemma crop_center_midpoint (b : crop_box) :
  (l_crop_cj (locals_of b) == fst (geometric_center b) /\
   l_crop_ci (locals_of b) == snd (geometric_center b))%Q.
Proof.
  destruct b as [[[x0 y0] x1] y1]; cbn.
  unfold Z.sub; rewrite !inject_Z_plus, !inject_Z_opp. split; field.
Qed.

Lemma crop_center_half_extent_x (b : crop_box) :
  (l_crop_cj (locals_of b) == inject_Z (l_crop_width (locals_of b)) / 2)%Q
  <-> box_x0 b = 0.
Proof.
  destruct b as [[[x0 y0] x1] y1]; cbn.
  unfold Z.sub; rewrite inject_Z_plus, inject_Z_opp. split.
  - intros E. assert (E0 : (inject_Z x0 == inject_Z 0)%Q) by (change (inject_Z 0) with 0%Q; qlra).
    now apply (proj1 (inject_Z_injective _ _)) in E0.
  - intros ->. cbn. field.
Qed.

Lemma crop_center_half_extent_y (b : crop_box) :
  (l_crop_ci (locals_of b) == inject_Z (l_crop_height (locals_of b)) / 2)%Q
  <-> box_y0 b = 0.
Proof.
  destruct b as [[[x0 y0] x1] y1]; cbn.
  unfold Z.sub; rewrite inject_Z_plus, inject_Z_opp. split.
  - intros E. assert (E0 : (inject_Z y0 == inject_Z 0)%Q) by (change (inject_Z 0) with 0%Q; qlra).
    now apply (proj1 (inject_Z_injective _ _)) in E0.
  - intros ->. cbn. field.
Qed.

End Calibrator.

(** C1.  [OXFORDDataset.__init__] computes the intrinsics as the stated
    algorithm does: the focal lengths are the pixel focal lengths divided
    by the sensor width and height and do not depend on the crop window;
    the crop centre is anchored at the far corner [(x1, y1)]; the
    principal point is shifted by [(crop_extent - 1) / 2] minus that
    centre and then divided by the sensor width and height.  For the
    constants of the source (sensor 1280x960, crop [(0, 300, 1280, 760)])
    the crop is 1280 wide and 460 high, [fx = 983.044006 / 1280] (about
    0.7680) and [fy = 983.044006 / 960] (about 1.0240). *)
Theorem compute_cropped_intrinsics_algorithm :
  (forall (W H : Z) (fxp fyp cxp cyp : Q) (b b' : crop_box),
     let l := intrinsics_locals W H fxp fyp cxp cyp b in
     let l' := intrinsics_locals W H fxp fyp cxp cyp b' in
     l_fx l = (fxp / inject_Z W)%Q /\
     l_fy l = (fyp / inject_Z H)%Q /\
     l_fx l' = l_fx l /\
     l_fy l' = l_fy l /\
     l_crop_width l = box_x1 b - box_x0 b /\
     l_crop_height l = box_y1 b - box_y0 b /\
     l_crop_cj l = (inject_Z (box_x1 b) - inject_Z (l_crop_width l) / 2)%Q /\
     l_crop_ci l = (inject_Z (box_y1 b) - inject_Z (l_crop_height l) / 2)%Q /\
     (l_crop_cx l ==
        (cxp + (inject_Z (l_crop_width l - 1) / 2 - l_crop_cj l)) / inject_Z W)%Q /\
     (l_crop_cy l ==
        (cyp + (inject_Z (l_crop_height l - 1) / 2 - l_crop_ci l)) / inject_Z H)%Q) /\
  (forall ext : string,
     ds_crop_area (init ext) = (0, 300, 1280, 760) /\
     ds_K (init ext) = K_of init_locals /\
     l_crop_width init_locals = 1280 /\
     l_crop_height init_locals = 460 /\
     (K_fx (init ext) == 983.044006 / 1280)%Q /\
     (K_fy (init ext) == 983.044006 / 960)%Q /\
     (Qabs (K_fx (init ext) - 0.7680) < 0.0001)%Q /\
     (Qabs (K_fy (init ext) - 1.0240) < 0.0001)%Q /\
     (K_cx (init ext) == 643.146973 / 1280)%Q /\
     (K_cy (init ext) == 192.878998 / 960)%Q).
Proof.
  split.
  - intros W H fxp fyp cxp cyp b b' l l'.
    repeat split; try reflexivity; subst l; cbn; unfold Qdiv; ring.
  - intros ext. repeat split; vm_compute; reflexivity.
Qed.

(** C5, as stated, fails on the one configuration the source builds:
    [fy] is larger than one. *)
Lemma intrinsics_not_all_in_unit_interval :
  ~ intrinsics_in_unit_interval (init ".jpg").
Proof.
  unfold intrinsics_in_unit_interval. intros (_ & [_ Hfy] & _).
  revert Hfy. vm_compute. intros Hfy. apply Hfy. reflexivity.
Qed.

(** C5, amended.  For the configuration of the source, whatever the
    image extension, [fx], [cx] and [cy] lie in [[0, 1]]; [fy] is the
    focal length over the sensor height, [983.044006 / 960], which is
    larger than one. *)
Theorem intrinsics_ranges (ext : string) :
  (0 <= K_fx (init ext) <= 1 /\
   0 <= K_cx (init ext) <= 1 /\
   0 <= K_cy (init ext) <= 1 /\
   K_fy (init ext) == 983.044006 / 960 /\
   1 < K_fy (init ext))%Q.
Proof.
  repeat split; vm_compute; try reflexivity; intros E; discriminate E.
Qed.

(** C6, as stated, fails on the crop window of the source itself: its
    centre is the midpoint of the window although [y0 = 300]. *)
Lemma crop_center_is_midpoint_off_origin :
  ~ ((l_crop_cj init_locals == fst (geometric_center crop_area) /\
      l_crop_ci init_locals == snd (geometric_center crop_area))%Q ->
     box_x0 crop_area = 0 /\ box_y0 crop_area = 0).
Proof.
  intros C. destruct C as [_ C].
  - split; vm_compute; reflexivity.
  - vm_compute in C. discriminate C.
Qed.

(** C6, amended.  For every crop window the centre
    [(x1 - crop_width / 2, y1 - crop_height / 2)] is the midpoint
    [((x0 + x1) / 2, (y0 + y1) / 2)] of the window; what holds exactly
    when [x0 = 0] (resp. [y0 = 0]) is that it equals half the extent,
    [crop_width / 2] (resp. [crop_height / 2]). *)
Theorem crop_center_geometry (W H : Z) (fxp fyp cxp cyp : Q) (b : crop_box) :
  let l := intrinsics_locals W H fxp fyp cxp cyp b in
  (l_crop_cj l == fst (geometric_center b))%Q /\
  (l_crop_ci l == snd (geometric_center b))%Q /\
  ((l_crop_cj l == inject_Z (l_crop_width l) / 2)%Q <-> box_x0 b = 0) /\
  ((l_crop_ci l == inject_Z (l_crop_height l) / 2)%Q <-> box_y0 b = 0).
Proof.
  intros l. subst l.
  split; [apply crop_center_midpoint|].
  split; [apply crop_center_midpoint|].
  split; [apply crop_center_half_extent_x | apply crop_center_half_extent_y].
Qed.

(** ** Path resolution ([get_image_path]) *)

Section PathResolver.

Import Posixpath.

Lemma append_empty_iff (s t : string) : s +:+ t = "" <-> s = "" /\ t = "".
Proof.
  destruct s; cbn; [|split; [discriminate | intros [E _]; discriminate E]].
  split; [auto | now intros [_ ->]].
Qed.

Lemma append_assoc (s t u : string) : (s +:+ t) +:+ u = s +:+ t +:+ u.
Proof.
  induction s as [|c s IH]; [reflexivity|].
  change (String c ((s +:+ t) +:+ u) = String c (s +:+ t +:+ u)).
  now rewrite IH.
Qed.

Lemma endswith_slash_append (s t : string) :
  t <> "" -> endswith_slash (s +:+ t) = endswith_slash t.
Proof.
  intros Ht. induction s as [|c s IH]; [reflexivity|].
  rewrite <- IH. change (String c s +:+ t) with (String c (s +:+ t)).
  destruct (s +:+ t) eqn:E; [|reflexivity].
  apply append_empty_iff in E. tauto.
Qed.

(** Joining three plain components puts one separator between them. *)
Lemma join_plain (folder side_name f_str : string) :
  folder <> "" -> endswith_slash folder = false ->
  side_name <> "" -> startswith "/" side_name = false ->
  endswith_slash side_name = false ->
  startswith "/" f_str = false ->
  join folder [side_name; f_str] = folder +:+ "/" +:+ side_name +:+ "/" +:+ f_str.
Proof.
  intros Hf Hfs Hs Hss Hse Hn. unfold join; cbn [fold_left].
  unfold join_step at 2. rewrite Hss, Hfs.
  destruct (String.eqb_spec folder "") as [E|_]; [contradiction|]. cbn [orb].
  unfold join_step. rewrite Hn.
  assert (Hne : "/" +:+ side_name <> "") by discriminate.
  rewrite (endswith_slash_append folder _ Hne).
  change ("/" +:+ side_name) with (String "/" side_name) at 2.
  assert (Hes : endswith_slash (String "/" side_name) = false).
  { cbn. destruct side_name; [contradiction | exact Hse]. }
  rewrite Hes.
  destruct (String.eqb_spec (folder +:+ "/" +:+ side_name) "") as [E|_].
  - apply append_empty_iff in E. tauto.
  - cbn [orb]. now rewrite !append_assoc.
Qed.

Lemma side_map_lookup (ext side : string) :
  ds_side_map (init ext) !! side =
    if String.eqb side "l" then Some "left"
    else if String.eqb side "r" then Some "right" else None.
Proof.
  cbn [init ds_side_map].
  destruct (String.eqb_spec side "l") as [->|Hl]; [apply lookup_insert_eq|].
  rewrite lookup_insert_ne by congruence.
  destruct (String.eqb_spec side "r") as [->|Hr]; [apply lookup_insert_eq|].
  rewrite lookup_insert_ne by congruence. apply lookup_empty.
Qed.

End PathResolver.

(** C8.  [get_image_path] maps the side through the table
    [{"l": "left", "r": "right"}] and returns
    [os.path.join(folder, side_name, frame_index + ext)]; for plain
    components that is [folder/side_name/frame_index+ext].  A side that
    is not in the table raises [KeyError] (the spec's
    [UnknownSideError]). *)
Theorem get_image_path_resolve (ext folder frame_index side : string) :
  let d := init ext in
  (side = "l" ->
     get_image_path d folder frame_index side
       = Ok (Posixpath.join folder ["left"; frame_index +:+ ext])) /\
  (side = "r" ->
     get_image_path d folder frame_index side
       = Ok (Posixpath.join folder ["right"; frame_index +:+ ext])) /\
  (side <> "l" -> side <> "r" ->
     get_image_path d folder frame_index side = Raise (KeyError side)) /\
  (folder <> "" -> Posixpath.endswith_slash folder = false ->
   Posixpath.startswith "/" (frame_index +:+ ext) = false ->
     get_image_path d folder frame_index "l"
       = Ok (folder +:+ "/left/" +:+ frame_index +:+ ext) /\
     get_image_path d folder frame_index "r"
       = Ok (folder +:+ "/right/" +:+ frame_index +:+ ext)).
Proof.
  intros d. subst d. unfold get_image_path. rewrite !side_map_lookup.
  split; [intros ->; reflexivity|].
  split; [intros ->; reflexivity|].
  split.
  - intros Hl Hr.
    destruct (String.eqb_spec side "l"); [contradiction|].
    destruct (String.eqb_spec side "r"); [contradiction|]. reflexivity.
  - intros Hf Hs Hn. cbn [String.eqb Ascii.eqb Bool.eqb ds_img_ext init].
    change (if ("l" =? "l")%string then Some "left"
            else if ("l" =? "r")%string then Some "right" else None)
      with (Some "left").
    change (if ("r" =? "l")%string then Some "left"
            else if ("r" =? "r")%string then Some "right" else None)
      with (Some "right").
    cbn iota.
    rewrite !join_plain by (assumption || discriminate || reflexivity).
    split; reflexivity.
Qed.

Lemma get_image_path_resolve_witness :
  get_image_path (init ".jpg") "/data/run" "1403774724431325" "l"
    = Ok "/data/run/left/1403774724431325.jpg" /\
  get_image_path (init ".jpg") "/data/run" "1403774724431325" "r"
    = Ok "/data/run/right/1403774724431325.jpg" /\
  get_image_path (init ".jpg") "/data/run" "1403774724431325" "c"
    = Raise (KeyError "c").
Proof.
  pose proof (get_image_path_resolve ".jpg" "/data/run" "1403774724431325" "l") as Hl.
  pose proof (get_image_path_resolve ".jpg" "/data/run" "1403774724431325" "r") as Hr.
  pose proof (get_image_path_resolve ".jpg" "/data/run" "1403774724431325" "c") as Hc.
  cbv zeta in Hl, Hr, Hc.
  destruct Hl as (Hl & _ & _ & Hp). destruct Hr as (_ & Hr & _).
  destruct Hc as (_ & _ & Hc & _).
  split; [|split].
  - apply (Hp ltac:(discriminate) eq_refl eq_refl).
  - apply (Hp ltac:(discriminate) eq_refl eq_refl).
  - apply Hc; discriminate.
Defined.

(** ** Arrays: minimum and percentile *)

Section ArrayFacts.

Import Array.



(** The index arithmetic of [percentile] on [n >= 1] elements. *)
Lemma percentile_index (n : nat) (q : Q) :
  (1 <= n)%nat -> (0 <= q <= 100)%Q ->
  let virtual_index := (q / 100 * (inject_Z (Z.of_nat n) - 1))%Q in
  let previous := Z.to_nat (Qfloor virtual_index) in
  (previous <= n - 1)%nat /\
  (0 <= virtual_index - inject_Z (Z.of_nat previous) < 1)%Q /\
  ((q < 100)%Q -> (2 <= n)%nat -> (previous <= n - 2)%nat).
Proof.
  intros Hn Hq vi previous.
  set (k := (inject_Z (Z.of_nat n) - 1)%Q) in *.
  assert (Hk : (k == inject_Z (Z.of_nat n - 1))%Q).
  { unfold k, Z.sub. rewrite inject_Z_plus, inject_Z_opp. reflexivity. }
  assert (Hk0 : (0 <= k)%Q).
  { rewrite Hk. change 0%Q with (inject_Z 0). rewrite <- Zle_Qle. lia. }
  assert (Hvi : (0 <= vi <= k)%Q) by (subst vi; unfold Qdiv; cbn [Qinv Qnum Qden]; nra).
  assert (Hf0 : (0 <= Qfloor vi)%Z).
  { change 0%Z with (Qfloor 0). apply Qfloor_resp_le, Hvi. }
  assert (Hp : Z.of_nat previous = Qfloor vi) by (subst previous; lia).
  pose proof (Qfloor_le vi) as Hlo. pose proof (Qlt_floor vi) as Hhi.
  rewrite inject_Z_plus in Hhi. change (inject_Z 1) with 1%Q in Hhi.
  split; [|split].
  - assert (Hle : (Qfloor vi <= Z.of_nat n - 1)%Z).
    { rewrite Zle_Qle, <- Hk. eapply Qle_trans; [exact Hlo | apply Hvi]. }
    lia.
  - rewrite Hp. lra.
  - intros Hq100 Hn2.
    assert (Hk1 : (0 < k)%Q).
    { rewrite Hk. change 0%Q with (inject_Z 0). rewrite <- Zlt_Qlt. lia. }
    assert (Hlt : (vi < k)%Q) by (subst vi; unfold Qdiv; cbn [Qinv Qnum Qden]; nra).
    assert (Hle : (Qfloor vi < Z.of_nat n - 1)%Z).
    { rewrite Zlt_Qlt, <- Hk. eapply Qle_lt_trans; [exact Hlo | exact Hlt]. }
    lia.
Qed.


Lemma merge_sort_length (l : list Q) : length (merge_sort Qle l) = length l.
Proof. apply Permutation_length, merge_sort_Permutation. Qed.

(** [percentile] is defined on every array that has an element. *)
Lemma percentile_defined (a : array) (q : Q) :
  flatten a <> [] -> (0 <= q <= 100)%Q -> exists v, percentile a q = Ok v.
Proof.
  intros Ha Hq. unfold percentile; cbv zeta.
  set (s := merge_sort Qle (flatten a)).
  assert (Hn : (1 <= length s)%nat).
  { unfold s. rewrite merge_sort_length. destruct (flatten a); [contradiction | cbn; lia]. }
  destruct (percentile_index (length s) q Hn Hq) as (Hp & _ & _).
  cbv zeta in Hp.
  set (previous := Z.to_nat _) in *.
  destruct (lookup_lt_is_Some_2 s previous ltac:(lia)) as [lo ->].
  destruct (lookup_lt_is_Some_2 s (Nat.min (previous + 1) (length s - 1)) ltac:(lia))
    as [hi ->].
  eauto.
Qed.


(** A percentile lies between two entries of the array. *)
Lemma percentile_inv (a : array) (q v : Q) :
  (0 <= q <= 100)%Q -> percentile a q = Ok v ->
  exists lo hi gamma,
    lo ∈ flatten a /\ hi ∈ flatten a /\ (0 <= gamma < 1)%Q /\
    v = (lo + (hi - lo) * gamma)%Q.
Proof.
  intros Hq. unfold percentile; cbv zeta.
  set (s := merge_sort Qle (flatten a)).
  destruct (s !! Z.to_nat _) as [lo|] eqn:Hlo; [|discriminate].
  destruct (s !! Nat.min _ _) as [hi|] eqn:Hhi; [|discriminate].
  intros [= <-].
  assert (Hn : (1 <= length s)%nat).
  { apply lookup_lt_Some in Hlo. lia. }
  destruct (percentile_index (length s) q Hn Hq) as (_ & Hg & _). cbv zeta in Hg.
  exists lo, hi, (q / 100 * (inject_Z (Z.of_nat (length s)) - 1)
                 - inject_Z (Z.of_nat (Z.to_nat
                     (Qfloor (q / 100 * (inject_Z (Z.of_nat (length s)) - 1))))))%Q.
  assert (Hperm : forall x, x ∈ s -> x ∈ flatten a).
  { intros x Hx.
    now apply (proj1 (elem_of_Permutation_proper x _ _ (merge_sort_Permutation Qle _))). }
  split; [eapply Hperm, list_elem_of_lookup_2; eassumption|].
  split; [eapply Hperm, list_elem_of_lookup_2; eassumption|].
  split; [exact Hg | reflexivity].
Qed.

(** [amin] is defined on every array that has an element, and is its
    least element. *)
Lemma amin_defined (a : array) : flatten a <> [] -> exists v, amin a = Ok v.
Proof. unfold amin. destruct (flatten a); [contradiction | eauto]. Qed.

Lemma Qmin_cases (x y : Q) :
  (Qmin x y = x /\ (x <= y)%Q) \/ (Qmin x y = y /\ (y <= x)%Q).
Proof.
  unfold Qmin, GenericMinMax.gmin. destruct (Qcompare x y) eqn:E.
  - left. split; [reflexivity|]. apply Qeq_alt in E. rewrite E. apply Qle_refl.
  - left. split; [reflexivity|]. apply Qlt_alt in E. now apply Qlt_le_weak.
  - right. split; [reflexivity|]. apply Qgt_alt in E. now apply Qlt_le_weak.
Qed.

Lemma fold_Qmin_spec (xs : list Q) (x : Q) :
  fold_left Qmin xs x ∈ x :: xs /\
  Forall (fun y => fold_left Qmin xs x <= y)%Q (x :: xs).
Proof.
  revert x. induction xs as [|y xs IH]; intros x; cbn [fold_left].
  - split; [left | repeat constructor; apply Qle_refl].
  - destruct (IH (Qmin x y)) as [Hin Hall].
    apply Forall_cons in Hall as [Hm Hall].
    destruct (Qmin_cases x y) as [[E Hle]|[E Hle]].
    + rewrite E in *. split.
      * apply elem_of_cons in Hin as [->|Hin]; [left | right; now right].
      * constructor; [exact Hm|]. constructor; [|exact Hall].
        eapply Qle_trans; eassumption.
    + rewrite E in *. split.
      * right. exact Hin.
      * constructor; [eapply Qle_trans; eassumption|].
        constructor; [exact Hm | exact Hall].
Qed.

Lemma amin_spec (a : array) (v : Q) :
  amin a = Ok v -> v ∈ flatten a /\ Forall (fun y => v <= y)%Q (flatten a).
Proof.
  unfold amin. destruct (flatten a) as [|x xs]; [discriminate|].
  intros [= <-]. apply fold_Qmin_spec.
Qed.


(** The minimum of an array is at most each of its percentiles. *)
Lemma amin_le_percentile (a : array) (q m v : Q) :
  (0 <= q <= 100)%Q -> amin a = Ok m -> percentile a q = Ok v -> (m <= v)%Q.
Proof.
  intros Hq Hm Hv.
  destruct (amin_spec _ _ Hm) as [_ Hall]. rewrite Forall_forall in Hall.
  destruct (percentile_inv _ _ _ Hq Hv) as (lo & hi & g & Hlo & Hhi & Hg & ->).
  pose proof (Hall lo Hlo). pose proof (Hall hi Hhi). nra.
Qed.

End ArrayFacts.

(** ** Rounding *)

Section Rounding.

Import Ieee.

Lemma rne_error (y : Q) : (Qabs (inject_Z (rne y) - y) <= 1 # 2)%Q.
Proof.
  unfold rne. pose proof (Qfloor_le y) as Hlo. pose proof (Qlt_floor y) as Hhi.
  rewrite inject_Z_plus in Hhi. change (inject_Z 1) with 1%Q in Hhi.
  apply Qabs_Qle_condition.
  destruct (Qcompare_spec (y - inject_Z (Qfloor y)) (1 # 2)) as [E|E|E].
  - destruct (Z.even (Qfloor y)).
    + split; lra.
    + rewrite inject_Z_plus. change (inject_Z 1) with 1%Q. split; lra.
  - split; lra.
  - rewrite inject_Z_plus. change (inject_Z 1) with 1%Q. split; lra.
Qed.

Lemma pow2_pos (e : Z) : (0 < 2 ^ e)%Q.
Proof. apply Qpower_0_lt. reflexivity. Qed.

Lemma pow2_plus (x y : Z) : (2 ^ (x + y) == 2 ^ x * 2 ^ y)%Q.
Proof. apply Qpower_plus. discriminate. Qed.

Lemma pow2_succ (x : Z) : (2 ^ (x + 1) == 2 ^ x * 2)%Q.
Proof. now rewrite pow2_plus. Qed.

Lemma pow2_inject (n : Z) : (0 <= n)%Z -> (inject_Z (2 ^ n) == 2 ^ n)%Q.
Proof. intros H. now rewrite Zpower_Qpower. Qed.

Lemma Qabs_make (n : Z) (d : positive) :
  (Qabs (n # d) * inject_Z (Zpos d) == inject_Z (Z.abs n))%Q.
Proof. unfold Qabs, Qeq, Qmult, inject_Z. cbn. lia. Qed.

(** [ilog2 q] is the exponent of the largest power of two that is at
    most [|q|]. *)
Lemma ilog2_spec (q : Q) :
  ~ (q == 0)%Q -> (2 ^ ilog2 q <= Qabs q < 2 ^ (ilog2 q + 1))%Q.
Proof.
  intros Hq. destruct q as [n d].
  assert (Hn : (0 < Z.abs n)%Z).
  { destruct (Z.eq_dec n 0) as [->|]; [exfalso; apply Hq; reflexivity | lia]. }
  pose proof (Z.log2_spec _ Hn) as [Hn1 Hn2].
  pose proof (Z.log2_spec (Zpos d) ltac:(lia)) as [Hd1 Hd2].
  pose proof (Z.log2_nonneg (Z.abs n)) as Hx.
  pose proof (Z.log2_nonneg (Zpos d)) as Hy.
  set (x := Z.log2 (Z.abs n)) in *. set (y := Z.log2 (Zpos d)) in *.
  pose proof (Qabs_make n d) as Habs.
  set (v := Qabs (n # d)) in *.
  assert (HD : (0 < inject_Z (Zpos d))%Q)
    by (change 0%Q with (inject_Z 0); rewrite <- Zlt_Qlt; lia).
  rewrite Zle_Qle in Hn1, Hd1. rewrite Zlt_Qlt in Hn2, Hd2.
  replace (Z.succ x) with (x + 1)%Z in Hn2 by lia.
  replace (Z.succ y) with (y + 1)%Z in Hd2 by lia.
  rewrite pow2_inject in Hn1, Hn2, Hd1, Hd2 by lia.
  rewrite <- Habs in Hn1, Hn2.
  assert (Hv : (0 <= v)%Q) by apply Qabs_nonneg.
  unfold ilog2. cbn [Qnum Qden]. fold x y v.
  pose proof (pow2_pos (x - y)) as P0.
  pose proof (pow2_pos (x - y - 1)) as P1.
  pose proof (pow2_pos x) as Px. pose proof (pow2_pos y) as Py.
  assert (E1 : (2 ^ x == 2 ^ (x - y) * 2 ^ y)%Q)
    by (rewrite <- pow2_plus; now replace (x - y + y)%Z with x by lia).
  assert (E2 : (2 ^ (x - y) == 2 ^ (x - y - 1) * 2)%Q)
    by (rewrite <- pow2_succ; now replace (x - y - 1 + 1)%Z with (x - y)%Z by lia).
  pose proof (pow2_succ y) as E3. pose proof (pow2_succ x) as E4.
  pose proof (pow2_succ (x - y)) as E5.
  destruct (Qle_bool (2 ^ (x - y)) v) eqn:T.
  - apply Qle_bool_iff in T. split; [exact T|].
    rewrite E5. apply Qnot_le_lt. intros C.
    assert (H1 : (2 ^ (x - y) * 2 * 2 ^ y <= v * inject_Z (Zpos d))%Q) by nra.
    nra.
  - assert (T' : (v < 2 ^ (x - y))%Q).
    { apply Qnot_le_lt. intros C. apply Qle_bool_iff in C. congruence. }
    replace (x - y - 1 + 1)%Z with (x - y)%Z by lia. split; [|exact T'].
    apply Qnot_lt_le. intros C.
    assert (H1 : (v * inject_Z (Zpos d) < 2 ^ (x - y - 1) * (2 ^ y * 2))%Q) by nra.
    nra.
Qed.

(** Equal rationals round to the same number. *)
Lemma round_comp (prec emin : Z) (x y : Q) :
  (x == y)%Q -> round prec emin x = round prec emin y.
Proof. intros E. unfold round. now rewrite (Qred_complete _ _ E). Qed.

(** The error of a rounding is at most half a unit in the last place. *)
Lemma round_error (prec emin : Z) (q : Q) :
  ~ (q == 0)%Q ->
  (Qabs (round prec emin q - q)
     <= 2 ^ (Z.max emin (ilog2 (Qred q) - prec + 1) - 1))%Q.
Proof.
  intros Hq. unfold round.
  assert (Hr : (Qred q == q)%Q) by apply Qred_correct.
  destruct (Qeq_bool (Qred q) 0) eqn:E.
  { apply Qeq_bool_iff in E. rewrite Hr in E. contradiction. }
  set (e := Z.max emin _).
  rewrite Qred_correct.
  pose proof (rne_error (Qred q / 2 ^ e)) as H.
  pose proof (pow2_pos e) as P.
  assert (E1 : (2 ^ e == 2 ^ (e - 1) * 2)%Q)
    by (rewrite <- pow2_succ; now replace (e - 1 + 1)%Z with e by lia).
  set (m := inject_Z (rne (Qred q / 2 ^ e))) in *.
  assert (E2 : (m * 2 ^ e - q == (m - Qred q / 2 ^ e) * 2 ^ e)%Q).
  { rewrite Hr. field. intros C. rewrite C in P. now apply (Qlt_irrefl 0). }
  rewrite E2, Qabs_Qmult, (Qabs_pos (2 ^ e)) by now apply Qlt_le_weak.
  pose proof (Qabs_nonneg (m - Qred q / 2 ^ e)).
  nra.
Qed.

(** In the normal range of the format the relative error of a rounding
    is at most [2^-prec]. *)
Lemma round_relative_error (prec emin : Z) (q : Q) :
  (2 ^ (emin + prec - 1) <= Qabs q)%Q ->
  (Qabs (round prec emin q - q) <= Qabs q * 2 ^ (- prec))%Q.
Proof.
  intros Hn.
  assert (Hq : ~ (q == 0)%Q).
  { intros C. rewrite C in Hn. pose proof (pow2_pos (emin + prec - 1)).
    change (Qabs 0) with 0%Q in Hn. lra. }
  pose proof (round_error prec emin q Hq) as H.
  assert (Hr : (Qred q == q)%Q) by apply Qred_correct.
  assert (Hq' : ~ (Qred q == 0)%Q) by now rewrite Hr.
  destruct (ilog2_spec (Qred q) Hq') as [Hlo Hhi].
  assert (Ha : (Qabs (Qred q) == Qabs q)%Q) by now rewrite Hr.
  rewrite Ha in Hlo, Hhi.
  assert (He : (emin + prec - 1 < ilog2 (Qred q) + 1)%Z).
  { apply (Qpower_lt_compat_l_inv 2); [|reflexivity].
    eapply Qle_lt_trans; eassumption. }
  replace (Z.max emin (ilog2 (Qred q) - prec + 1) - 1)%Z
    with (ilog2 (Qred q) + - prec)%Z in H by lia.
  rewrite pow2_plus in H.
  pose proof (pow2_pos (- prec)). nra.
Qed.

(** The float32 product of a Python scalar [k] with a float32 [d]
    (the scalar converted to float32, the product rounded to float32)
    is within [2^-22], relatively, of the exact product. *)
Lemma float32_product_error (k d : Q) :
  (1 # 2 ^ 60 <= Qabs k)%Q -> (1 # 2 ^ 60 <= Qabs d)%Q ->
  (Qabs (float32 (float32 k * d) - k * d) <= Qabs (k * d) * (1 # 2 ^ 22))%Q.
Proof.
  intros Hk Hd. unfold float32.
  assert (Hk' : (2 ^ (-149 + 24 - 1) <= Qabs k)%Q).
  { eapply Qle_trans; [|exact Hk]. vm_compute. discriminate. }
  pose proof (round_relative_error 24 (-149) k Hk') as Ek.
  set (k' := round 24 (-149) k) in *.
  assert (U : (2 ^ (-24) == 1 # 2 ^ 24)%Q) by reflexivity.
  rewrite U in Ek.
  pose proof (Qabs_nonneg k) as K0. pose proof (Qabs_nonneg d) as D0.
  assert (Ek' : (Qabs k * (1 - (1 # 2 ^ 24)) <= Qabs k')%Q).
  { pose proof (Qabs_triangle_reverse k k') as T.
    rewrite (Qabs_Qminus k k') in T. lra. }
  assert (Ek'' : (Qabs k' <= Qabs k * (1 + (1 # 2 ^ 24)))%Q).
  { pose proof (Qabs_triangle_reverse k' k) as T. lra. }
  assert (Hp : (2 ^ (-149 + 24 - 1) <= Qabs (k' * d))%Q).
  { rewrite Qabs_Qmult.
    apply Qle_trans with ((1 # 2 ^ 60) * (1 - (1 # 2 ^ 24)) * (1 # 2 ^ 60))%Q;
      [vm_compute; discriminate|].
    assert ((1 # 2 ^ 60) * (1 - (1 # 2 ^ 24)) <= Qabs k')%Q by nra.
    assert (0 <= (1 # 2 ^ 60) * (1 - (1 # 2 ^ 24)))%Q by (vm_compute; discriminate).
    nra. }
  pose proof (round_relative_error 24 (-149) (k' * d) Hp) as Ep.
  rewrite U in Ep. rewrite Qabs_Qmult in Ep.
  set (v := round 24 (-149) (k' * d)) in *.
  assert (E : (v - k * d == (v - k' * d) + (k' - k) * d)%Q) by ring.
  rewrite E. eapply Qle_trans; [apply Qabs_triangle|].
  rewrite (Qabs_Qmult (k' - k) d), (Qabs_Qmult k d).
  pose proof (Qabs_nonneg (v - k' * d)). pose proof (Qabs_nonneg (k' - k)).
  pose proof (Qabs_nonneg k').
  assert (B1 : (Qabs k' * Qabs d <= Qabs k * (1 + (1 # 2 ^ 24)) * Qabs d)%Q) by nra.
  assert (B2 : (Qabs (k' - k) * Qabs d <= Qabs k * (1 # 2 ^ 24) * Qabs d)%Q) by nra.
  assert (B3 : (Qabs (v - k' * d)
                <= Qabs k * (1 + (1 # 2 ^ 24)) * Qabs d * (1 # 2 ^ 24))%Q) by nra.
  assert (KD : (0 <= Qabs k * Qabs d)%Q) by nra.
  set (kd := (Qabs k * Qabs d)%Q) in *.
  assert (B3' : (Qabs k * (1 + (1 # 2 ^ 24)) * Qabs d * (1 # 2 ^ 24)
                 == kd * ((1 + (1 # 2 ^ 24)) * (1 # 2 ^ 24)))%Q) by (unfold kd; ring).
  assert (B2' : (Qabs k * (1 # 2 ^ 24) * Qabs d == kd * (1 # 2 ^ 24))%Q)
    by (unfold kd; ring).
  rewrite B3' in B3. rewrite B2' in B2.
  assert (C : ((1 + (1 # 2 ^ 24)) * (1 # 2 ^ 24) + (1 # 2 ^ 24) <= 1 # 2 ^ 22)%Q)
    by (vm_compute; discriminate).
  nra.
Qed.

End Rounding.

(** ** One iteration of the prediction loop *)

Section PredictImage.

Import Array Pil TestSimple.

Variables (rt : runtime) (a : args) (feed_width feed_height : Z)
          (encoder : tensor -> features rt) (depth_decoder : features rt -> array)
          (output_directory : string) (n_paths idx : nat) (image_path : string).

#[local] Abbreviation run :=
  (predict_image rt a feed_width feed_height encoder depth_decoder
                 output_directory n_paths idx image_path).

(** Line 195: a path that ends with [_disp.jpg] is skipped. *)
Lemma predict_image_skip :
  Str.endswith "_disp.jpg" image_path = true -> run = (Ok None, []).
Proof. unfold predict_image. now intros ->. Qed.

(** What a completed iteration computed and did. *)
Lemma predict_image_inv (f : frame) (t : list event) :
  run = (Ok (Some f), t) ->
  exists img,
    Str.endswith "_disp.jpg" image_path = false /\
    pil_open rt image_path = Ok img /\
    f_input_image f = cropped_input a img /\
    f_original_width f = im_width (f_input_image f) /\
    f_original_height f = im_height (f_input_image f) /\
    f_network_input f =
      ToTensor (resize rt (f_input_image f) (feed_width, feed_height) LANCZOS) /\
    f_disp f = depth_decoder (encoder (f_network_input f)) /\
    f_disp_resized f =
      interpolate rt (f_disp f) (f_original_height f, f_original_width f)
                  Bilinear false /\
    f_output_name f = fst (Posixpath.splitext (Posixpath.basename image_path)) /\
    (f_scaled_disp f, f_depth f) = disp_to_depth rt (f_disp f) 0.1%Q 100%Q /\
    percentile (f_disp_resized f) 95%Q = Ok (vmax (f_normalizer f)) /\
    amin (f_disp_resized f) = Ok (vmin (f_normalizer f)) /\
    f_name_dest_npy f =
      Posixpath.join output_directory
        [f_output_name f +:+
           (if pred_metric_depth a then "_depth.npy" else "_disp.npy")] /\
    f_name_dest_im f =
      Posixpath.join output_directory [f_output_name f +:+ "_disp.jpeg"] /\
    t = frame_events rt a n_paths idx f.
Proof.
  unfold predict_image, frame_events, scale_factor_prints, numeric_array,
    cropped_input.
  destruct (Str.endswith _ _); [discriminate|].
  destruct (pil_open rt image_path) as [img|e]; [|discriminate].
  cbn [lift mbind M_bind].
  destruct (disp_to_depth rt _ _ _) as [scaled_disp depth] eqn:Ed.
  destruct (pred_metric_depth a), (dataset a);
    cbn [mbind M_bind print emit mret M_ret app lift size];
    destruct (percentile _ _) as [vmax|e] eqn:Ep; try discriminate;
    destruct (amin _) as [vmin|e] eqn:Em; try discriminate;
    cbn [mbind M_bind print emit mret M_ret app lift];
    destruct (squeezed_ndim _) as [|[|[|n]]]; try discriminate;
    cbn [mbind M_bind print emit mret M_ret app lift];
    intros [= <- <-]; exists img; cbn; rewrite ?Ed;
    repeat split; (reflexivity || assumption).
Qed.

(** A completed iteration had a resized disparity with two axes. *)
Lemma predict_image_two_axes (f : frame) (t : list event) :
  run = (Ok (Some f), t) -> squeezed_ndim (f_disp_resized f) = 2%nat.
Proof.
  unfold predict_image.
  destruct (Str.endswith _ _); [discriminate|].
  destruct (pil_open rt image_path) as [img|e]; [|discriminate].
  cbn [lift mbind M_bind].
  destruct (disp_to_depth rt _ _ _) as [scaled_disp depth] eqn:Ed.
  destruct (pred_metric_depth a), (dataset a);
    cbn [mbind M_bind print emit mret M_ret app lift size];
    destruct (percentile _ _) as [vmax|e] eqn:Ep; try discriminate;
    destruct (amin _) as [vmin|e] eqn:Em; try discriminate;
    cbn [mbind M_bind print emit mret M_ret app lift];
    destruct (squeezed_ndim _) as [|[|[|n]]] eqn:En; try discriminate;
    cbn [mbind M_bind print emit mret M_ret app lift];
    intros [= <- <-]; exact En.
Qed.


(** An iteration whose image opens and whose resized disparity has an
    element and two axes completes. *)
Lemma predict_image_total (img : image) :
  Str.endswith "_disp.jpg" image_path = false ->
  pil_open rt image_path = Ok img ->
  let input := cropped_input a img in
  let disp :=
    depth_decoder (encoder (ToTensor (resize rt input (feed_width, feed_height) LANCZOS))) in
  let shown := interpolate rt disp (im_height input, im_width input) Bilinear false in
  flatten shown <> [] ->
  squeezed_ndim shown = 2%nat ->
  exists f, run = (Ok (Some f), frame_events rt a n_paths idx f).
Proof.
  intros Hend Hopen input disp shown Hne Hnd.
  destruct (percentile_defined _ 95%Q Hne ltac:(lra)) as [vmax Ep].
  destruct (amin_defined _ Hne) as [vmin Em].
  subst shown input disp. unfold cropped_input in Ep, Em, Hnd.
  unfold predict_image, frame_events, scale_factor_prints, numeric_array.
  rewrite Hend, Hopen. cbn [lift mbind M_bind].
  destruct (disp_to_depth rt _ _ _) as [scaled_disp depth] eqn:Ed.
  destruct (pred_metric_depth a), (dataset a);
    cbn [mbind M_bind print emit mret M_ret app lift size];
    rewrite Ep, Em;
    cbn [mbind M_bind print emit mret M_ret app lift];
    rewrite Hnd;
    cbn [mbind M_bind print emit mret M_ret app lift];
    match goal with |- exists f, (Ok (Some ?x), _) = _ => exists x end;
    rewrite ?Ed; reflexivity.
Qed.

(** The events of a completed iteration, in terms of the image that was
    opened. *)
Lemma predict_image_completed (img : image) (f : frame) (t : list event) :
  pil_open rt image_path = Ok img ->
  run = (Ok (Some f), t) ->
  let input := cropped_input a img in
  let disp :=
    depth_decoder (encoder (ToTensor (resize rt input (feed_width, feed_height) LANCZOS))) in
  let shown := interpolate rt disp (im_height input, im_width input) Bilinear false in
  let stem := fst (Posixpath.splitext (Posixpath.basename image_path)) in
  let name_dest_npy :=
    Posixpath.join output_directory
      [stem +:+ (if pred_metric_depth a then "_depth.npy" else "_disp.npy")] in
  let name_dest_im := Posixpath.join output_directory [stem +:+ "_disp.jpeg"] in
  exists norm,
    amin shown = Ok (vmin norm) /\
    percentile shown 95%Q = Ok (vmax norm) /\
    squeezed_ndim shown = 2%nat /\
    t =
      scale_factor_prints rt a ++
      [ NpSave name_dest_npy
          (if pred_metric_depth a then
             scale match dataset a with
                   | KITTI => STEREO_SCALE_FACTOR rt
                   | OXFORD => (0.24 / 0.1)%Q
                   end (snd (disp_to_depth rt disp 0.1 100))
           else fst (disp_to_depth rt disp 0.1 100));
        ImSave name_dest_im (colormapped rt norm "magma" shown);
        Print [PStr ("   Processed " +:+ pretty (idx + 1)%nat +:+ " of "
                     +:+ pretty n_paths +:+ " images - saved predictions to:")];
        Print [PStr ("   - " +:+ name_dest_im)];
        Print [PStr ("   - " +:+ name_dest_npy)] ].
Proof.
  intros Hopen Hf input disp shown stem name_dest_npy name_dest_im.
  pose proof (predict_image_two_axes f t Hf) as Hnd.
  destruct (predict_image_inv f _ Hf)
    as (img' & _ & Hopen' & Hin & Hw & Hh & Hnet & Hdisp & Hres & Hname & Hdd
        & Hp & Hm & Hnpy & Him & ->).
  rewrite Hopen in Hopen'. injection Hopen' as <-.
  assert (Ed : f_disp f = disp) by (rewrite Hdisp, Hnet, Hin; reflexivity).
  assert (Es : f_disp_resized f = shown)
    by (rewrite Hres, Hw, Hh, Ed, Hin; reflexivity).
  rewrite Ed in Hdd. rewrite Es in Hp, Hm, Hnd.
  exists (f_normalizer f).
  split; [exact Hm|]. split; [exact Hp|]. split; [exact Hnd|].
  unfold frame_events, numeric_array.
  rewrite Hnpy, Him, Hname, Es, <- Hdd. fold stem name_dest_npy name_dest_im.
  f_equal. f_equal. f_equal.
  destruct (pred_metric_depth a); [|reflexivity]. now destruct (dataset a).
Qed.

(** The [.npy] file a completed iteration wrote. *)
Lemma predict_image_completed_npy (img : image) (f : frame) (t : list event) :
  pil_open rt image_path = Ok img ->
  run = (Ok (Some f), t) ->
  let disp :=
    depth_decoder (encoder (ToTensor
      (resize rt (cropped_input a img) (feed_width, feed_height) LANCZOS))) in
  let stem := fst (Posixpath.splitext (Posixpath.basename image_path)) in
  npy_saves t =
    [(Posixpath.join output_directory
        [stem +:+ (if pred_metric_depth a then "_depth.npy" else "_disp.npy")],
      if pred_metric_depth a then
        scale match dataset a with
              | KITTI => STEREO_SCALE_FACTOR rt
              | OXFORD => (0.24 / 0.1)%Q
              end (snd (disp_to_depth rt disp 0.1 100))
      else fst (disp_to_depth rt disp 0.1 100))].
Proof.
  intros Hopen Hf disp stem.
  destruct (predict_image_completed img f t Hopen Hf) as (norm & _ & _ & _ & ->).
  unfold npy_saves. rewrite omap_app. unfold scale_factor_prints.
  destruct (pred_metric_depth a), (dataset a); reflexivity.
Qed.

(** The events of an iteration whose image opens and whose resized
    disparity has an element and two axes. *)
Lemma predict_image_trace (img : image) :
  Str.endswith "_disp.jpg" image_path = false ->
  pil_open rt image_path = Ok img ->
  let input := cropped_input a img in
  let disp :=
    depth_decoder (encoder (ToTensor (resize rt input (feed_width, feed_height) LANCZOS))) in
  let shown := interpolate rt disp (im_height input, im_width input) Bilinear false in
  let stem := fst (Posixpath.splitext (Posixpath.basename image_path)) in
  let name_dest_npy :=
    Posixpath.join output_directory
      [stem +:+ (if pred_metric_depth a then "_depth.npy" else "_disp.npy")] in
  let name_dest_im := Posixpath.join output_directory [stem +:+ "_disp.jpeg"] in
  flatten shown <> [] ->
  squeezed_ndim shown = 2%nat ->
  exists f norm,
    amin shown = Ok (vmin norm) /\
    percentile shown 95%Q = Ok (vmax norm) /\
    run =
      (Ok (Some f),
       scale_factor_prints rt a ++
       [ NpSave name_dest_npy
           (if pred_metric_depth a then
              scale match dataset a with
                    | KITTI => STEREO_SCALE_FACTOR rt
                    | OXFORD => (0.24 / 0.1)%Q
                    end (snd (disp_to_depth rt disp 0.1 100))
            else fst (disp_to_depth rt disp 0.1 100));
         ImSave name_dest_im (colormapped rt norm "magma" shown);
         Print [PStr ("   Processed " +:+ pretty (idx + 1)%nat +:+ " of "
                      +:+ pretty n_paths +:+ " images - saved predictions to:")];
         Print [PStr ("   - " +:+ name_dest_im)];
         Print [PStr ("   - " +:+ name_dest_npy)] ]).
Proof.
  intros Hend Hopen input disp shown stem name_dest_npy name_dest_im Hne Hnd.
  destruct (predict_image_total img Hend Hopen Hne Hnd) as [f Hf].
  destruct (predict_image_completed img f _ Hopen Hf) as (norm & Hm & Hp & _ & E).
  exists f, norm. split; [exact Hm|]. split; [exact Hp|].
  rewrite Hf. f_equal. exact E.
Qed.

Lemma npy_saves_frame_events (f : frame) :
  npy_saves (frame_events rt a n_paths idx f)
    = [(f_name_dest_npy f, numeric_array rt a f)].
Proof.
  unfold frame_events, scale_factor_prints.
  destruct (pred_metric_depth a), (dataset a); reflexivity.
Qed.

Lemma image_saves_frame_events (f : frame) :
  image_saves (frame_events rt a n_paths idx f)
    = [(f_name_dest_im f,
        colormapped rt (f_normalizer f) "magma" (f_disp_resized f))].
Proof.
  unfold frame_events, scale_factor_prints.
  destruct (pred_metric_depth a), (dataset a); reflexivity.
Qed.

End PredictImage.

(** ** File names *)

Section FileNames.

Import Posixpath.

Lemma has_slash_append (s t : string) :
  has_slash (s +:+ t) = (has_slash s || has_slash t)%bool.
Proof.
  induction s as [|c s IH]; [reflexivity|].
  change (String c s +:+ t) with (String c (s +:+ t)).
  cbn [has_slash]. rewrite IH. apply orb_assoc.
Qed.

Lemma basename_no_slash (p : string) : has_slash p = false -> basename p = p.
Proof. destruct p as [|c p]; [reflexivity|]. cbn [basename]. now intros ->. Qed.

Lemma basename_append (s t : string) :
  has_slash t = false -> basename (s +:+ t) = basename s +:+ t.
Proof.
  intros Ht. induction s as [|c s IH]; [now apply basename_no_slash|].
  change (String c s +:+ t) with (String c (s +:+ t)).
  cbn [basename].
  change (has_slash (String c (s +:+ t))) with (has_slash (String c s +:+ t)).
  rewrite has_slash_append, Ht, orb_false_r.
  destruct (has_slash (String c s)); [exact IH | reflexivity].
Qed.

Lemma endswith_slash_has_slash (s : string) :
  endswith_slash s = true -> has_slash s = true.
Proof.
  induction s as [|c s IH]; [discriminate|].
  cbn [endswith_slash has_slash]. destruct s as [|d s].
  - intros ->. reflexivity.
  - intros H. rewrite (IH H). apply orb_true_r.
Qed.

Lemma basename_endswith_slash (s : string) :
  endswith_slash s = true -> basename s = "".
Proof.
  induction s as [|c s IH]; [discriminate|].
  intros H. cbn [basename]. rewrite (endswith_slash_has_slash _ H).
  destruct s as [|d s]; [reflexivity | apply IH, H].
Qed.

Lemma has_slash_substring (p : string) :
  has_slash p = false -> forall n m, has_slash (substring n m p) = false.
Proof.
  induction p as [|c p IH]; intros Hp n m.
  - destruct n, m; reflexivity.
  - cbn [has_slash] in Hp. apply orb_false_iff in Hp as [Hc Hp].
    destruct n as [|n]; cbn [substring].
    + destruct m as [|m]; [reflexivity|]. cbn [has_slash].
      now rewrite Hc, (IH Hp).
    + apply IH, Hp.
Qed.

Lemma has_slash_basename (p : string) : has_slash (basename p) = false.
Proof.
  induction p as [|c p IH]; [reflexivity|].
  cbn [basename]. destruct (has_slash (String c p)) eqn:E; [exact IH | exact E].
Qed.

Lemma has_slash_splitext (p : string) :
  has_slash p = false -> has_slash (fst (splitext p)) = false.
Proof.
  intros Hp. unfold splitext.
  destruct (_ && _); cbn [fst]; [now apply has_slash_substring | exact Hp].
Qed.

Lemma startswith_slash_has_slash (s : string) :
  has_slash s = false -> startswith "/" s = false.
Proof.
  destruct s as [|c s]; [reflexivity|].
  cbn [has_slash]. intros H. apply orb_false_iff in H as [Hc _].
  unfold startswith. cbn [String.prefix].
  destruct (ascii_dec "/" c) as [<-|_]; [discriminate Hc | reflexivity].
Qed.

(** A name without a separator is the last component of its join with
    any directory. *)
Lemma basename_join (dir name : string) :
  has_slash name = false -> basename (join dir [name]) = name.
Proof.
  intros Hn. unfold join; cbn [fold_left]. unfold join_step.
  rewrite (startswith_slash_has_slash _ Hn).
  destruct (String.eqb_spec dir "") as [->|Hd]; cbn [orb].
  - now apply basename_no_slash.
  - destruct (endswith_slash dir) eqn:E.
    + now rewrite (basename_append _ _ Hn), (basename_endswith_slash _ E).
    + rewrite <- append_assoc, (basename_append _ _ Hn).
      rewrite (basename_endswith_slash (dir +:+ "/")); [reflexivity|].
      now rewrite endswith_slash_append.
Qed.

(** The stem of an image path has no separator. *)
Lemma has_slash_stem (p suffix : string) :
  has_slash suffix = false ->
  has_slash (fst (splitext (basename p)) +:+ suffix) = false.
Proof.
  intros Hs. rewrite has_slash_append, Hs, orb_false_r.
  apply has_slash_splitext, has_slash_basename.
Qed.

End FileNames.

(** ** Claims about one iteration *)

Section FrameClaims.

Import Array Pil TestSimple.

Variables (rt : runtime) (a : args) (feed_width feed_height : Z)
          (encoder : tensor -> features rt) (depth_decoder : features rt -> array)
          (output_directory : string) (n_paths idx : nat) (image_path : string).

#[local] Abbreviation run :=
  (predict_image rt a feed_width feed_height encoder depth_decoder
                 output_directory n_paths idx image_path).

Lemma item_map (g : Q -> Q) (x : array) (i j : nat) :
  item (map (map g) x) i j = g <$> item x i j.
Proof.
  unfold item.
  change (map (map g) x) with (map g <$> x).
  rewrite list_lookup_fmap.
  destruct (x !! i) as [row|]; cbn; [|reflexivity].
  change (map g row) with (g <$> row). apply list_lookup_fmap.
Qed.

(** C2, amended.  With [--pred_metric_depth] and [--dataset OXFORD] the
    array an iteration writes to [{stem}_depth.npy] is the depth that
    [disp_to_depth] gives for the disparity of the network on the
    cropped and resized image, multiplied entry by entry by
    [oxford_baseline / 0.1] with [oxford_baseline = 0.24], in float32:
    the factor is converted to float32 and each product is rounded to
    float32.  A saved entry is thus within [2^-22], relatively, of 2.4
    times the depth, for depths between [2^-60] and [2^60]; a depth of
    10 gives 24 exactly. *)
Theorem oxford_metric_scaling (img : image) (f : frame) (t : list event) :
  pil_open rt image_path = Ok img ->
  run = (Ok (Some f), t) ->
  pred_metric_depth a = true ->
  dataset a = OXFORD ->
  let input := crop img (crop_area a) in
  let disp :=
    depth_decoder (encoder (ToTensor (resize rt input (feed_width, feed_height) LANCZOS))) in
  let depth := snd (disp_to_depth rt disp 0.1 100) in
  let stem := fst (Posixpath.splitext (Posixpath.basename image_path)) in
  let oxford_baseline := 0.24%Q in
  let metric_depth :=
    map (map (fun d => Ieee.float32 (Ieee.float32 (oxford_baseline / 0.1) * d))) depth in
  npy_saves t
    = [(Posixpath.join output_directory [stem +:+ "_depth.npy"], metric_depth)] /\
  (forall i j,
     item metric_depth i j
       = (fun d => Ieee.float32 (Ieee.float32 (oxford_baseline / 0.1) * d))
           <$> item depth i j) /\
  (forall i j d, item depth i j = Some d ->
     (1 # 2 ^ 60 <= Qabs d)%Q -> (Qabs d <= inject_Z (2 ^ 60))%Q ->
     exists v, item metric_depth i j = Some v /\
               (Qabs (v - d * 2.4) <= Qabs (d * 2.4) * (1 # 2 ^ 22))%Q) /\
  (forall i j d, item depth i j = Some d -> (d == 10.0)%Q ->
     exists v, item metric_depth i j = Some v /\ (v == 24.0)%Q).
Proof.
  intros Hopen Hrun Hm Hd input disp depth stem oxford_baseline metric_depth.
  pose proof (predict_image_completed_npy rt a feed_width feed_height encoder
                depth_decoder output_directory n_paths idx image_path img f t
                Hopen Hrun) as H.
  cbv zeta in H. unfold cropped_input in H. rewrite Hm, Hd in H.
  split; [exact H|]. split; [intros i j; apply item_map|]. split.
  - intros i j d Hi Hlo _. unfold metric_depth. rewrite item_map, Hi.
    eexists. split; [reflexivity|].
    assert (Hk : (1 # 2 ^ 60 <= Qabs (oxford_baseline / 0.1))%Q)
      by (vm_compute; discriminate).
    pose proof (float32_product_error (oxford_baseline / 0.1) d Hk Hlo) as E.
    assert (Ekd : (oxford_baseline / 0.1 * d == d * 2.4)%Q)
      by (unfold oxford_baseline; field).
    now rewrite Ekd in E.
  - intros i j d Hi E10. unfold metric_depth. rewrite item_map, Hi.
    eexists. split; [reflexivity|].
    assert (Ep : (Ieee.float32 (oxford_baseline / 0.1) * d
                  == Ieee.float32 (oxford_baseline / 0.1) * 10.0)%Q)
      by now rewrite E10.
    unfold Ieee.float32 at 1. rewrite (round_comp _ _ _ _ Ep). vm_compute. reflexivity.
Qed.




(** C10.  The array saved with [np.save] is computed from the disparity
    the decoder returns for the input at the feed resolution, through
    [disp_to_depth]; it is the same whatever [interpolate] does.  The
    interpolated disparity is what the image file shows. *)
Theorem npy_from_network_resolution (f : frame) (t : list event) :
  run = (Ok (Some f), t) ->
  let disp := depth_decoder (encoder (f_network_input f)) in
  (t_width (f_network_input f), t_height (f_network_input f))
    = (feed_width, feed_height) /\
  f_disp f = disp /\
  npy_saves t =
    [(f_name_dest_npy f,
      if pred_metric_depth a then
        match dataset a with
        | KITTI => scale (STEREO_SCALE_FACTOR rt) (snd (disp_to_depth rt disp 0.1 100))
        | OXFORD => scale (0.24 / 0.1) (snd (disp_to_depth rt disp 0.1 100))
        end%Q
      else fst (disp_to_depth rt disp 0.1 100)%Q)] /\
  f_disp_resized f =
    interpolate rt disp
      (im_height (f_input_image f), im_width (f_input_image f)) Bilinear false /\
  image_saves t =
    [(f_name_dest_im f,
      colormapped rt (f_normalizer f) "magma" (f_disp_resized f))] /\
  (forall g f' t',
     predict_image (with_interpolate rt g) a feed_width feed_height
                   encoder depth_decoder output_directory n_paths idx image_path
       = (Ok (Some f'), t') ->
     npy_saves t' = npy_saves t).
Proof.
  intros Hrun disp.
  destruct (predict_image_inv _ _ _ _ _ _ _ _ _ _ f t Hrun)
    as (img & _ & Hopen & Hin & Hw & Hh & Hnet & Hdisp & Hres & Hname & Hdd & _
        & _ & Hnpy & _ & ->).
  fold disp in Hdisp. rewrite Hdisp in Hdd, Hres.
  assert (Hsaved : numeric_array rt a f =
    if pred_metric_depth a then
      match dataset a with
      | KITTI => scale (STEREO_SCALE_FACTOR rt) (snd (disp_to_depth rt disp 0.1 100))
      | OXFORD => scale (0.24 / 0.1) (snd (disp_to_depth rt disp 0.1 100))
      end%Q
    else fst (disp_to_depth rt disp 0.1 100)%Q).
  { unfold numeric_array. now rewrite <- Hdd. }
  split; [rewrite Hnet; reflexivity|].
  split; [exact Hdisp|].
  split; [rewrite npy_saves_frame_events, Hsaved; reflexivity|].
  split; [rewrite Hres, Hw, Hh; reflexivity|].
  split; [apply image_saves_frame_events|].
  intros g f' t' Hrun'.
  destruct (predict_image_inv _ _ _ _ _ _ _ _ _ _ f' t' Hrun')
    as (img' & _ & Hopen' & Hin' & _ & _ & Hnet' & Hdisp' & _ & Hname' & Hdd'
        & _ & _ & Hnpy' & _ & ->).
  cbn [with_interpolate pil_open] in Hopen'. rewrite Hopen in Hopen'.
  injection Hopen' as <-.
  rewrite !npy_saves_frame_events.
  assert (Enet : f_network_input f' = f_network_input f).
  { rewrite Hnet, Hnet', Hin, Hin'. reflexivity. }
  assert (Edisp : f_disp f' = disp) by (rewrite Hdisp', Enet; reflexivity).
  rewrite Edisp in Hdd'. cbn [with_interpolate disp_to_depth] in Hdd'.
  rewrite Hnpy, Hnpy', Hname, Hname'. f_equal. f_equal.
  rewrite Hsaved. unfold numeric_array. rewrite <- Hdd'. reflexivity.
Qed.


(** C7.  A completed iteration wrote exactly one [.npy] file, chosen
    by [--pred_metric_depth].  With the flag it is [{stem}_depth.npy]
    and holds, entry by entry, the float32 product of the stereo factor
    of the dataset with the depth that [disp_to_depth] gives for the
    disparity of the network; each entry is within [2^-22], relatively,
    of factor times depth.  Without the flag it is [{stem}_disp.npy] and
    holds the scaled disparity of [disp_to_depth] itself, to which no
    factor is applied. *)
Theorem npy_output_by_metric_flag (img : image) (f : frame) (t : list event) :
  pil_open rt image_path = Ok img ->
  run = (Ok (Some f), t) ->
  let stem := fst (Posixpath.splitext (Posixpath.basename image_path)) in
  let disp :=
    depth_decoder (encoder (ToTensor
      (resize rt (cropped_input a img) (feed_width, feed_height) LANCZOS))) in
  let scaled_disp := fst (disp_to_depth rt disp 0.1 100) in
  let depth := snd (disp_to_depth rt disp 0.1 100) in
  let factor :=
    match dataset a with
    | KITTI => STEREO_SCALE_FACTOR rt
    | OXFORD => (0.24 / 0.1)%Q
    end in
  exists name content,
    npy_saves t = [(Posixpath.join output_directory [name], content)] /\
    Posixpath.basename (Posixpath.join output_directory [name]) = name /\
    (pred_metric_depth a = true ->
       name = stem +:+ "_depth.npy" /\
       content = map (map (fun d => Ieee.float32 (Ieee.float32 factor * d))) depth /\
       (forall i j d, item depth i j = Some d ->
          (1 # 2 ^ 60 <= Qabs factor)%Q -> (Qabs factor <= inject_Z (2 ^ 60))%Q ->
          (1 # 2 ^ 60 <= Qabs d)%Q -> (Qabs d <= inject_Z (2 ^ 60))%Q ->
          exists v, item content i j = Some v /\
                    (Qabs (v - factor * d) <= Qabs (factor * d) * (1 # 2 ^ 22))%Q)) /\
    (pred_metric_depth a = false ->
       name = stem +:+ "_disp.npy" /\ content = scaled_disp).
Proof.
  intros Hopen Hrun stem disp scaled_disp depth factor.
  pose proof (predict_image_completed_npy rt a feed_width feed_height encoder
                depth_decoder output_directory n_paths idx image_path img f t
                Hopen Hrun) as H.
  cbv zeta in H. fold stem disp scaled_disp depth factor in H.
  eexists _, _. split; [exact H|].
  split; [apply basename_join, has_slash_stem; now destruct (pred_metric_depth a)|].
  split; intros ->; (split; [reflexivity|]); [|reflexivity].
  split; [reflexivity|].
  intros i j d Hi Hk _ Hd _. unfold scale. rewrite item_map, Hi.
  eexists. split; [reflexivity|]. now apply float32_product_error.
Qed.

End FrameClaims.

(** ** The whole run *)

Section WholeRun.

Import Array Pil TestSimple.

Variables (rt : runtime) (a : args) (name : string).

#[local] Abbreviation dev :=
  (if cuda_is_available rt && negb (no_cuda a) then Cuda else Cpu).

(** [test_simple] on a named model is the optional warning followed by
    the rest of the run. *)
Lemma test_simple_unfold :
  model_name a = Some name ->
  test_simple rt a =
    (fst (run_model rt a name dev),
     (if pred_metric_depth a && negb (Str.contains "stereo" name)
      then [Print [PStr warning]] else [])
     ++ snd (run_model rt a name dev)).
Proof.
  intros Hn. unfold test_simple. rewrite Hn. cbn [mbind M_bind mret M_ret app].
  destruct (pred_metric_depth a && negb (Str.contains "stereo" name));
    cbn [when print emit mret M_ret mbind M_bind app];
    destruct (run_model rt a name dev) as [[[]|e] t]; reflexivity.
Qed.

(** With working collaborators, a run on one image file loads the
    model, makes the output directory if it is missing, runs the one
    iteration and ends with [-> Done!]. *)
Lemma run_model_single_image (feed_height feed_width : Z)
    (encoder : tensor -> features rt) (depth_decoder : features rt -> array)
    (img : image) :
  single_image_setup rt a name feed_height feed_width encoder depth_decoder img ->
  let input := cropped_input a img in
  let disp :=
    depth_decoder (encoder (ToTensor (resize rt input (feed_width, feed_height) LANCZOS))) in
  let shown := interpolate rt disp (im_height input, im_width input) Bilinear false in
  let stem := fst (Posixpath.splitext (Posixpath.basename (image_path a))) in
  let output_directory :=
    match dataset a with
    | KITTI => Posixpath.join kitti_path [model a; dataset_run a]
    | OXFORD => Posixpath.join oxford_path [model a; dataset_run a]
    end in
  let name_dest_npy :=
    Posixpath.join output_directory
      [stem +:+ (if pred_metric_depth a then "_depth.npy" else "_disp.npy")] in
  let name_dest_im := Posixpath.join output_directory [stem +:+ "_disp.jpeg"] in
  exists norm,
    amin shown = Ok (vmin norm) /\
    percentile shown 95%Q = Ok (vmax norm) /\
    run_model rt a name dev =
      (Ok tt,
       [Print [PStr "-> Loading model from "; PStr (Posixpath.join "models" [name])];
        Print [PStr "   Loading pretrained encoder"];
        Print [PStr "   Loading pretrained decoder"]]
       ++ (if isdir rt output_directory then [] else [Makedirs output_directory])
       ++ [Print [PStr "-> Predicting on 1 test images"]]
       ++ scale_factor_prints rt a
       ++ [NpSave name_dest_npy
             (if pred_metric_depth a then
                scale match dataset a with
                      | KITTI => STEREO_SCALE_FACTOR rt
                      | OXFORD => (0.24 / 0.1)%Q
                      end (snd (disp_to_depth rt disp 0.1 100))
              else fst (disp_to_depth rt disp 0.1 100));
           ImSave name_dest_im (colormapped rt norm "magma" shown);
           Print [PStr "   Processed 1 of 1 images - saved predictions to:"];
           Print [PStr ("   - " +:+ name_dest_im)];
           Print [PStr ("   - " +:+ name_dest_npy)];
           Print [PStr "-> Done!"]]).
Proof.
  intros Hsetup input disp shown stem od name_dest_npy name_dest_im.
  unfold single_image_setup in Hsetup. cbv zeta in Hsetup.
  set (model_path := Posixpath.join "models" [name]) in *.
  destruct Hsetup as (Hdl & Hres & Henc & Hdec & Hfile & Hend & Hopen & Hne & Hnd).
  destruct (predict_image_trace rt a feed_width feed_height encoder depth_decoder
              od 1 0 (image_path a) img Hend Hopen Hne Hnd)
    as (f & norm & Hm & Hp & Hf).
  fold input disp shown stem name_dest_npy name_dest_im in Hm, Hp, Hf.
  exists norm. split; [exact Hm|]. split; [exact Hp|].
  unfold run_model. rewrite Hdl. fold model_path.
  cbn [lift mbind M_bind print emit mret M_ret app].
  assert (Hnum : (if (resnet a =? 18)%Z then mret 18%Z
                  else if (resnet a =? 50)%Z then mret 50%Z
                  else raise (Exception ("Can not find resnet " +:+ pretty (resnet a))))
                 = (Ok (resnet a), [])).
  { destruct Hres as [E | E]; rewrite E; reflexivity. }
  rewrite Hnum. cbn [mbind M_bind app]. rewrite Henc.
  cbn [mbind M_bind print emit mret M_ret app]. rewrite Hdec.
  cbn [mbind M_bind print emit mret M_ret app]. fold od.
  unfold find_paths. rewrite Hfile.
  cbn [mbind M_bind print emit mret M_ret app length for_enumerate].
  rewrite Hf. cbn [mbind M_bind print emit mret M_ret app].
  rewrite !app_nil_r.
  destruct (isdir rt od);
    cbn [negb when mbind M_bind print emit mret M_ret app];
    rewrite <- ?app_assoc; reflexivity.
Qed.


(** C9.  When metric depth is asked for a model whose name does not
    contain [stereo], the run prints the warning and then does what it
    does without it: the outcome is that of the rest of the run.  On
    one image with working collaborators the run goes on after the
    warning: it loads the model, makes the output directory if it is
    missing, writes the metric depth and the image and ends with
    [-> Done!]. *)
Theorem metric_warning_not_fatal :
  model_name a = Some name ->
  pred_metric_depth a = true ->
  Str.contains "stereo" name = false ->
  test_simple rt a =
    (fst (run_model rt a name dev),
     Print [PStr warning] :: snd (run_model rt a name dev)) /\
  (forall feed_height feed_width encoder depth_decoder img,
     single_image_setup rt a name feed_height feed_width encoder depth_decoder img ->
     let input := cropped_input a img in
     let disp :=
       depth_decoder (encoder (ToTensor
         (resize rt input (feed_width, feed_height) LANCZOS))) in
     let shown := interpolate rt disp (im_height input, im_width input) Bilinear false in
     let depth := snd (disp_to_depth rt disp 0.1 100) in
     let stem := fst (Posixpath.splitext (Posixpath.basename (image_path a))) in
     let output_directory :=
       match dataset a with
       | KITTI => Posixpath.join kitti_path [model a; dataset_run a]
       | OXFORD => Posixpath.join oxford_path [model a; dataset_run a]
       end in
     let factor :=
       match dataset a with
       | KITTI => STEREO_SCALE_FACTOR rt
       | OXFORD => (0.24 / 0.1)%Q
       end in
     let name_dest_npy := Posixpath.join output_directory [stem +:+ "_depth.npy"] in
     let name_dest_im := Posixpath.join output_directory [stem +:+ "_disp.jpeg"] in
     exists norm,
       amin shown = Ok (vmin norm) /\
       percentile shown 95%Q = Ok (vmax norm) /\
       test_simple rt a =
         (Ok tt,
          [Print [PStr warning];
           Print [PStr "-> Loading model from "; PStr (Posixpath.join "models" [name])];
           Print [PStr "   Loading pretrained encoder"];
           Print [PStr "   Loading pretrained decoder"]]
          ++ (if isdir rt output_directory then [] else [Makedirs output_directory])
          ++ [Print [PStr "-> Predicting on 1 test images"];
              Print match dataset a with
                    | KITTI => [PStr "-> KITTI STEREO_SCALE_FACTOR"; PFloat factor]
                    | OXFORD => [PStr "-> OXFORD STEREO_SCALE_FACTOR"; PFloat factor]
                    end;
              NpSave name_dest_npy
                (map (map (fun d => Ieee.float32 (Ieee.float32 factor * d))) depth);
              ImSave name_dest_im (colormapped rt norm "magma" shown);
              Print [PStr "   Processed 1 of 1 images - saved predictions to:"];
              Print [PStr ("   - " +:+ name_dest_im)];
              Print [PStr ("   - " +:+ name_dest_npy)];
              Print [PStr "-> Done!"]])).
Proof.
  intros Hn Hm Hs.
  pose proof (test_simple_unfold Hn) as E. rewrite Hm, Hs in E. cbn [andb negb app] in E.
  split; [exact E|].
  intros fh fw enc dec img Hsetup input disp shown depth stem od factor
         name_dest_npy name_dest_im.
  destruct (run_model_single_image fh fw enc dec img Hsetup)
    as (norm & Hmin & Hp & Hrun).
  fold input disp shown stem od in Hmin, Hp, Hrun.
  exists norm. split; [exact Hmin|]. split; [exact Hp|].
  rewrite E, Hrun. unfold scale_factor_prints. rewrite Hm. cbn [fst snd].
  f_equal. subst factor. now destruct (dataset a).
Qed.

End WholeRun.

(** ** The claims on the small runtime *)

Import Array Pil TestSimple.

Example percentile_outlier_example :
  percentile [[1; 1; 1]; [1; 100; 1]]%Q 95 = Ok (1 + (100 - 1) * (4.75 - 4))%Q /\
  amin [[1; 1; 1]; [1; 100; 1]]%Q = Ok 1%Q.
Proof. split; vm_compute; reflexivity. Qed.

(** The default [--crop_area] on a 1280x960 image leaves 1280x480. *)
Example default_crop_size :
  size (crop {| im_width := 1280; im_height := 960; im_px := fun _ _ => black |}
             (0, 240, 1280, 720)) = (1280, 480).
Proof. reflexivity. Qed.

(** The iteration of [Demo] completes. *)
Lemma demo_iteration_runs (kind : dataset_kind) (metric : bool) :
  exists f,
    Demo.iteration kind metric =
      (Ok (Some f), frame_events Demo.rt (Demo.args_of kind "oxford" metric) 1 0 f).
Proof.
  unfold Demo.iteration.
  apply (predict_image_total _ _ _ _ _ _ _ _ _ _ (Demo.gradient 8 6));
    [reflexivity | reflexivity | |].
  - destruct kind; vm_compute; discriminate.
  - destruct kind; vm_compute; reflexivity.
Qed.

Lemma demo_single_image_setup (kind : dataset_kind) (metric : bool) :
  single_image_setup Demo.rt (Demo.args_of kind "oxford" metric) "oxford"
                     2 4 (fun x => x) Demo.red (Demo.gradient 8 6).
Proof.
  unfold single_image_setup. cbv zeta.
  repeat split; try reflexivity; [left; reflexivity | |].
  - destruct kind; vm_compute; discriminate.
  - destruct kind; vm_compute; reflexivity.
Qed.

(** An iteration of [Demo] whose decoder returns the disparity [d]
    completes when the disparity interpolated for the image has an
    element and two axes. *)
Lemma demo_constant_runs (a : args) (d : array) :
  let input := cropped_input a (Demo.gradient 8 6) in
  let shown := Demo.nearest d (im_height input, im_width input) in
  flatten shown <> [] ->
  squeezed_ndim shown = 2%nat ->
  exists f t,
    predict_image Demo.rt a 4 2 (fun x => x) (Demo.constant d)
                  "/out" 1 0 "/data/left/0001.jpg" = (Ok (Some f), t).
Proof.
  intros input shown Hne Hnd.
  destruct (predict_image_total Demo.rt a 4 2 (fun x => x) (Demo.constant d)
              "/out" 1 0 "/data/left/0001.jpg" (Demo.gradient 8 6)
              eq_refl eq_refl Hne Hnd) as [f Hf].
  eauto.
Qed.

Lemma oxford_metric_scaling_witness :
  exists f t,
    predict_image Demo.rt (Demo.args_of OXFORD "oxford" true) 4 2
                  (fun x => x) (Demo.constant Demo.disp_10_100)
                  "/out" 1 0 "/data/left/0001.jpg" = (Ok (Some f), t) /\
    npy_saves t
      = [("/out/0001_depth.npy",
          [[24; 15728641 # 65536; 24; 15728641 # 65536];
           [15728641 # 65536; 24; 15728641 # 65536; 24]]%Q)].
Proof.
  destruct (demo_constant_runs (Demo.args_of OXFORD "oxford" true) Demo.disp_10_100
              ltac:(vm_compute; discriminate) eq_refl) as (f & t & E).
  exists f, t. split; [exact E|].
  destruct (oxford_metric_scaling Demo.rt (Demo.args_of OXFORD "oxford" true) 4 2
              (fun x => x) (Demo.constant Demo.disp_10_100)
              "/out" 1 0 "/data/left/0001.jpg" (Demo.gradient 8 6) f t
              eq_refl E eq_refl eq_refl) as (H & _).
  rewrite H. vm_compute. reflexivity.
Defined.

(** C2, as stated, fails for a depth of 100: the saved value is
    240.0000152587890625, the float32 nearest to the product of 100 with
    the float32 nearest to 2.4, and not 100 x 2.4. *)
Lemma metric_depth_of_100_is_not_240 :
  let depth := snd (disp_to_depth Demo.rt Demo.disp_10_100 0.1 100) in
  exists f t metric_depth v,
    predict_image Demo.rt (Demo.args_of OXFORD "oxford" true) 4 2
                  (fun x => x) (Demo.constant Demo.disp_10_100)
                  "/out" 1 0 "/data/left/0001.jpg" = (Ok (Some f), t) /\
    npy_saves t = [("/out/0001_depth.npy", metric_depth)] /\
    item depth 0 1 = Some 100%Q /\
    item metric_depth 0 1 = Some v /\
    v = (15728641 # 65536)%Q /\
    ~ (v == 100 * (0.24 / 0.1))%Q /\
    ~ (v == 100 * 2.4)%Q.
Proof.
  cbv zeta.
  destruct (demo_constant_runs (Demo.args_of OXFORD "oxford" true) Demo.disp_10_100
              ltac:(vm_compute; discriminate) eq_refl) as (f & t & E).
  exists f, t. eexists _, _. split; [exact E|].
  assert (Et : t = snd (predict_image Demo.rt (Demo.args_of OXFORD "oxford" true) 4 2
                          (fun x => x) (Demo.constant Demo.disp_10_100)
                          "/out" 1 0 "/data/left/0001.jpg")) by now rewrite E.
  split; [rewrite Et; vm_compute; reflexivity|].
  split; [vm_compute; reflexivity|].
  split; [vm_compute; reflexivity|].
  split; [reflexivity|].
  split; intros C; vm_compute in C; discriminate C.
Qed.




Lemma npy_output_by_metric_flag_witness :
  (exists f t,
     predict_image Demo.rt (Demo.args_of KITTI "oxford" true) 4 2
                   (fun x => x) (Demo.constant Demo.disp_10_100)
                   "/out" 1 0 "/data/left/0001.jpg" = (Ok (Some f), t) /\
     npy_saves t
       = [("/out/0001_depth.npy", [[54; 540; 54; 540]; [540; 54; 540; 54]]%Q)]) /\
  (exists f t,
     predict_image Demo.rt (Demo.args_of KITTI "oxford" false) 4 2
                   (fun x => x) (Demo.constant Demo.disp_10_100)
                   "/out" 1 0 "/data/left/0001.jpg" = (Ok (Some f), t) /\
     npy_saves t
       = [("/out/0001_disp.npy",
           [[0.1; 0.01; 0.1; 0.01]; [0.01; 0.1; 0.01; 0.1]]%Q)]).
Proof.
  split.
  - destruct (demo_constant_runs (Demo.args_of KITTI "oxford" true) Demo.disp_10_100
                ltac:(vm_compute; discriminate) eq_refl) as (f & t & E).
    exists f, t. split; [exact E|].
    destruct (npy_output_by_metric_flag Demo.rt (Demo.args_of KITTI "oxford" true) 4 2
                (fun x => x) (Demo.constant Demo.disp_10_100)
                "/out" 1 0 "/data/left/0001.jpg" (Demo.gradient 8 6) f t eq_refl E)
      as (name & content & Hs & _ & Ht & _).
    destruct (Ht eq_refl) as (-> & -> & _). rewrite Hs. vm_compute. reflexivity.
  - destruct (demo_constant_runs (Demo.args_of KITTI "oxford" false) Demo.disp_10_100
                ltac:(vm_compute; discriminate) eq_refl) as (f & t & E).
    exists f, t. split; [exact E|].
    destruct (npy_output_by_metric_flag Demo.rt (Demo.args_of KITTI "oxford" false) 4 2
                (fun x => x) (Demo.constant Demo.disp_10_100)
                "/out" 1 0 "/data/left/0001.jpg" (Demo.gradient 8 6) f t eq_refl E)
      as (name & content & Hs & _ & _ & Hf).
    destruct (Hf eq_refl) as (-> & ->). rewrite Hs. vm_compute. reflexivity.
Defined.

Lemma npy_from_network_resolution_witness :
  exists f t,
    Demo.iteration OXFORD true = (Ok (Some f), t) /\
    (t_width (f_network_input f), t_height (f_network_input f)) = (4, 2) /\
    f_disp f = Demo.red (f_network_input f).
Proof.
  destruct (demo_iteration_runs OXFORD true) as [f E].
  exists f; eexists. split; [exact E|].
  destruct (npy_from_network_resolution Demo.rt (Demo.args_of OXFORD "oxford" true)
              4 2 (fun x => x) Demo.red "/out" 1 0 "/data/left/0001.jpg" f _ E)
    as (Hsz & Hd & _).
  split; [exact Hsz | exact Hd].
Defined.

Lemma metric_warning_not_fatal_witness :
  test_simple Demo.rt (Demo.args_of OXFORD "oxford" true) =
    (Ok tt,
     [Print [PStr warning];
      Print [PStr "-> Loading model from "; PStr "models/oxford"];
      Print [PStr "   Loading pretrained encoder"];
      Print [PStr "   Loading pretrained decoder"];
      Makedirs "/home/radice/neuralNetworks/results/monodepth2/OXFORD/m/r";
      Print [PStr "-> Predicting on 1 test images"];
      Print [PStr "-> OXFORD STEREO_SCALE_FACTOR"; PFloat (0.24 / 0.1)];
      NpSave "/home/radice/neuralNetworks/results/monodepth2/OXFORD/m/r/0001_depth.npy"
        [[12793631 # 262144; 7726549 # 4194304; 15750355 # 16777216;
          10567999 # 16777216];
         [9866675 # 524288; 14576457 # 8388608; 3820495 # 4194304;
          10355053 # 16777216]]%Q;
      ImSave "/home/radice/neuralNetworks/results/monodepth2/OXFORD/m/r/0001_disp.jpeg"
        [[(0, 0, 0); (0, 0, 0); (83, 83, 83); (83, 83, 83);
          (166, 166, 166); (166, 166, 166); (249, 249, 249); (249, 249, 249)];
         [(0, 0, 0); (0, 0, 0); (83, 83, 83); (83, 83, 83);
          (166, 166, 166); (166, 166, 166); (249, 249, 249); (249, 249, 249)];
         [(5, 5, 5); (5, 5, 5); (88, 88, 88); (88, 88, 88);
          (171, 171, 171); (171, 171, 171); (255, 255, 255); (255, 255, 255)];
         [(5, 5, 5); (5, 5, 5); (88, 88, 88); (88, 88, 88);
          (171, 171, 171); (171, 171, 171); (255, 255, 255); (255, 255, 255)]];
      Print [PStr "   Processed 1 of 1 images - saved predictions to:"];
      Print [PStr "   - /home/radice/neuralNetworks/results/monodepth2/OXFORD/m/r/0001_disp.jpeg"];
      Print [PStr "   - /home/radice/neuralNetworks/results/monodepth2/OXFORD/m/r/0001_depth.npy"];
      Print [PStr "-> Done!"]]).
Proof.
  destruct (metric_warning_not_fatal Demo.rt (Demo.args_of OXFORD "oxford" true)
              "oxford" eq_refl eq_refl eq_refl) as [_ H].
  destruct (H 2 4 (fun x => x) Demo.red (Demo.gradient 8 6)
              (demo_single_image_setup OXFORD true)) as ([lo hi] & Hmin & Hp & Ht).
  cbn [vmin vmax] in Hmin, Hp.
  vm_compute in Hmin. injection Hmin as <-.
  vm_compute in Hp. injection Hp as <-.
  rewrite Ht. vm_compute. reflexivity.
Defined.

(** ** The constants in binary64 and binary32 *)

(** In binary64 and binary32 the focal lengths of [K] are within
    [10^-7] of the rationals of the exact model, so still about 0.7680
    and 1.0240, and [fy] is still above one. *)
Lemma rounded_focal_lengths (ext : string) :
  Binary.K_fx = S754_finite false 12884954 (-24) /\
  Binary.K_fy = S754_finite false 8589970 (-23) /\
  (Qabs (Binary.to_Q Binary.K_fx - OxfordDataset.K_fx (init ext)) < 1 # 10000000)%Q /\
  (Qabs (Binary.to_Q Binary.K_fy - OxfordDataset.K_fy (init ext)) < 1 # 10000000)%Q /\
  (Qabs (Binary.to_Q Binary.K_fx - 0.7680) < 0.0001)%Q /\
  (Qabs (Binary.to_Q Binary.K_fy - 1.0240) < 0.0001)%Q /\
  (1 < Binary.to_Q Binary.K_fy)%Q.
Proof. repeat split; vm_compute; reflexivity. Qed.

(** In binary64 [0.24 / 0.1] is the number the literal [2.4] denotes,
    and in binary32 the metric depth of [10.0] is [24.0] exactly. *)
Lemma rounded_oxford_scaling :
  Binary.stereo_scale_factor = Binary.literal 24 1 /\
  Binary.metric_depth (Binary.of_Z Binary.binary32 10)
    = Binary.of_Z Binary.binary32 24 /\
  (Binary.to_Q (Binary.metric_depth (Binary.of_Z Binary.binary32 10)) == 24.0)%Q.
Proof. repeat split; vm_compute; reflexivity. Qed.

(** The rounding of module [Ieee] gives the numbers the operations of
    [SpecFloat] give: on the scale factor in binary64, on its conversion
    to float32, on the float32 products of lines 228 and 233 for the
    depths 10 and 100, on a tie and on a subnormal number. *)
Lemma rounding_agrees_with_binary :
  (Binary.to_Q Binary.stereo_scale_factor
     == Ieee.float64 (Ieee.float64 0.24 / Ieee.float64 0.1))%Q /\
  (Ieee.float64 (Ieee.float64 0.24 / Ieee.float64 0.1) == Ieee.float64 (0.24 / 0.1))%Q /\
  (Binary.to_Q (Binary.round_to Binary.binary32 Binary.stereo_scale_factor)
     == Ieee.float32 (0.24 / 0.1))%Q /\
  (Binary.to_Q (Binary.metric_depth (Binary.of_Z Binary.binary32 10))
     == Ieee.float32 (Ieee.float32 (0.24 / 0.1) * 10))%Q /\
  (Binary.to_Q (Binary.metric_depth (Binary.of_Z Binary.binary32 100))
     == Ieee.float32 (Ieee.float32 (0.24 / 0.1) * 100))%Q /\
  (Ieee.float32 (Ieee.float32 (0.24 / 0.1) * 100) == 240.0000152587890625)%Q /\
  (Binary.to_Q (Binary.of_Z Binary.binary32 16777217) == Ieee.float32 16777217)%Q /\
  (Binary.to_Q (Binary.of_Z Binary.binary32 16777219) == Ieee.float32 16777219)%Q /\
  (Binary.to_Q (Binary.div Binary.binary32
                  (Binary.div Binary.binary32 (Binary.of_Z Binary.binary32 3)
                              (Binary.of_Z Binary.binary32 (2 ^ 100)))
                  (Binary.of_Z Binary.binary32 (2 ^ 50)))
     == Ieee.float32 (3 # 2 ^ 150))%Q.
Proof. repeat split; vm_compute; reflexivity. Qed.

(** * Further properties of the code *)

(** ** Strings *)

Section StringFacts.

Lemma length_append (s t : string) :
  String.length (s +:+ t) = (String.length s + String.length t)%nat.
Proof.
  induction s as [|c s IH]; [reflexivity|].
  change (String c s +:+ t) with (String c (s +:+ t)). cbn [String.length].
  now rewrite IH.
Qed.

Lemma substring_append_skip (pre t : string) (k n : nat) :
  substring (String.length pre + k) n (pre +:+ t) = substring k n t.
Proof. induction pre as [|c pre IH]; [reflexivity | exact IH]. Qed.

Lemma substring_all (s : string) : substring 0 (String.length s) s = s.
Proof. induction s as [|c s IH]; [reflexivity|]. cbn. now rewrite IH. Qed.

Lemma substring_split (s : string) (n : nat) :
  (n <= String.length s)%nat ->
  substring 0 n s +:+ substring n (String.length s - n) s = s.
Proof.
  revert n. induction s as [|c s IH]; intros n Hn.
  - destruct n; [reflexivity | cbn in Hn; lia].
  - destruct n as [|n].
    + cbn [substring String.length Nat.sub]. cbn [append].
      now rewrite substring_all.
    + cbn [substring String.length Nat.sub].
      change (String c (substring 0 n s) +:+ substring n (String.length s - n) s)
        with (String c (substring 0 n s +:+ substring n (String.length s - n) s)).
      rewrite IH; [reflexivity | cbn in Hn; lia].
Qed.

(** [s.endswith(suf)] holds exactly when [s] is something followed by
    [suf]. *)
Lemma endswith_iff (suf s : string) :
  Str.endswith suf s = true <-> exists pre, s = pre +:+ suf.
Proof.
  unfold Str.endswith. rewrite andb_true_iff, Nat.leb_le, String.eqb_eq. split.
  - intros [Hle E]. exists (substring 0 (String.length s - String.length suf) s).
    pose proof (substring_split s (String.length s - String.length suf) ltac:(lia)) as H.
    replace (String.length s - (String.length s - String.length suf))%nat
      with (String.length suf) in H by lia.
    rewrite E in H. now symmetry.
  - intros [pre ->]. rewrite length_append. split; [lia|].
    replace (String.length pre + String.length suf - String.length suf)%nat
      with (String.length pre + 0)%nat by lia.
    rewrite substring_append_skip. apply substring_all.
Qed.

Lemma split_space_word (w : string) :
  Batch.no_space w = true -> Str.split_space w = [w].
Proof.
  induction w as [|c w IH]; [reflexivity|].
  cbn [Batch.no_space Str.split_space]. intros H.
  apply andb_true_iff in H as [Hc Hw]. apply negb_true_iff in Hc.
  now rewrite Hc, (IH Hw).
Qed.

Lemma split_space_cons (w rest : string) :
  Batch.no_space w = true ->
  Str.split_space (w +:+ " " +:+ rest) = w :: Str.split_space rest.
Proof.
  induction w as [|c w IH]; [reflexivity|].
  cbn [Batch.no_space]. intros H.
  apply andb_true_iff in H as [Hc Hw]. apply negb_true_iff in Hc.
  change (String c w +:+ " " +:+ rest) with (String c (w +:+ " " +:+ rest)).
  cbn [Str.split_space]. now rewrite Hc, (IH Hw).
Qed.

(** Splitting a line of words that have no space gives the words back. *)
Lemma split_space_line (folder frame_index side : string) :
  Batch.no_space folder = true -> Batch.no_space frame_index = true ->
  Batch.no_space side = true ->
  Str.split_space (Batch.split_line (folder, frame_index, side))
    = [folder; frame_index; side].
Proof.
  intros Hf Hi Hs. unfold Batch.split_line.
  now rewrite (split_space_cons _ _ Hf), (split_space_cons _ _ Hi),
    (split_space_word _ Hs).
Qed.

End StringFacts.

(** ** Finding the input images *)

Section FindPaths.

Import Array Pil TestSimple Batch.

Variables (rt : runtime) (a : args).

#[local] Abbreviation oxford_side_map :=
  (<["l" := "left"]> (<["r" := "right"]> ∅) : gmap string string).

#[local] Abbreviation kitti_side_map :=
  (<["2" := 2]> (<["3" := 3]> (<["l" := 2]> (<["r" := 3]> ∅))) : gmap string Z).

Lemma oxford_side_map_lookup (side : string) :
  oxford_side_map !! side =
    if String.eqb side "l" then Some "left"
    else if String.eqb side "r" then Some "right" else None.
Proof. exact (side_map_lookup "" side). Qed.

Lemma oxford_test_path_ok (paths : list string) (l : string * string * string) :
  oxford_entry_ok l ->
  oxford_test_path oxford_side_map paths (split_line l)
    = (Ok (paths ++ [oxford_entry_path l]), []).
Proof.
  destruct l as [[folder frame_index] side]. intros (Hf & Hi & Hs).
  unfold oxford_test_path.
  rewrite split_space_line by (assumption || (destruct Hs as [-> | ->]; reflexivity)).
  cbn [index lookup list_lookup mbind M_bind mret M_ret app].
  unfold getitem. rewrite oxford_side_map_lookup.
  destruct Hs as [-> | ->]; reflexivity.
Qed.

Lemma oxford_for_fold_ok (ls : list (string * string * string)) :
  Forall oxford_entry_ok ls ->
  forall paths,
    for_fold (oxford_test_path oxford_side_map) paths (map split_line ls)
      = (Ok (paths ++ map oxford_entry_path ls), []).
Proof.
  induction 1 as [|l ls Hl _ IH]; intros paths; cbn [map for_fold].
  - now rewrite app_nil_r.
  - rewrite (oxford_test_path_ok _ _ Hl). cbn [mbind M_bind app].
    rewrite IH, <- app_assoc. reflexivity.
Qed.

(** X1.  With [--dataset OXFORD --use_test_set] on a directory, the images
    are those of the split file, in its order: a line
    [folder frame_index side] gives [folder/left/frame_index.jpg] or
    [folder/right/frame_index.jpg]. *)
Theorem find_paths_oxford_test_set (ls : list (string * string * string)) :
  isfile rt (image_path a) = false ->
  isdir rt (image_path a) = true ->
  dataset a = OXFORD ->
  use_test_set a = true ->
  readlines rt (Posixpath.join test_files_dir ["oxford"; "test_files.txt"])
    = Ok (map split_line ls) ->
  Forall oxford_entry_ok ls ->
  find_paths rt a = (Ok (map oxford_entry_path ls), []).
Proof.
  intros Hf Hd Hk Hu Hr Hls. unfold find_paths.
  rewrite Hf, Hd, Hk, Hu, Hr. cbn [lift mbind M_bind app].
  rewrite (oxford_for_fold_ok ls Hls []). reflexivity.
Qed.

(** X2.  A line of the split file with fewer than three fields raises
    [IndexError], one whose third field is not [l] or [r] raises
    [KeyError]; the lines before it must be good, those after it are
    not looked at, and no list of paths comes back. *)
Theorem find_paths_oxford_bad_line
    (ls : list (string * string * string)) (bad : string) (rest : list string) :
  isfile rt (image_path a) = false ->
  isdir rt (image_path a) = true ->
  dataset a = OXFORD ->
  use_test_set a = true ->
  readlines rt (Posixpath.join test_files_dir ["oxford"; "test_files.txt"])
    = Ok (map split_line ls ++ bad :: rest) ->
  Forall oxford_entry_ok ls ->
  (Str.split_space bad !! 2%nat = None ->
     find_paths rt a = (Raise IndexError, [])) /\
  (forall side, Str.split_space bad !! 2%nat = Some side ->
     side <> "l" -> side <> "r" ->
     find_paths rt a = (Raise (KeyError side), [])).
Proof.
  intros Hf Hd Hk Hu Hr Hls.
  assert (Hfold : forall paths,
    for_fold (oxford_test_path oxford_side_map) paths (map split_line ls ++ bad :: rest)
      = oxford_test_path oxford_side_map (paths ++ map oxford_entry_path ls) bad
        ≫= fun acc => for_fold (oxford_test_path oxford_side_map) acc rest).
  { clear Hr. induction Hls as [|l ls Hl _ IH]; intros paths; cbn [map app for_fold].
    - now rewrite app_nil_r.
    - rewrite (oxford_test_path_ok _ _ Hl). cbn [mbind M_bind].
      rewrite IH, <- app_assoc. cbn [app].
      destruct (oxford_test_path _ _ bad ≫= _) as [r t]. reflexivity. }
  assert (Hhead : exists x, Str.split_space bad !! 0%nat = Some x).
  { destruct bad as [|c bad]; cbn [Str.split_space]; [eauto|].
    destruct (Ascii.eqb c " "); [eauto|].
    destruct (Str.split_space bad); eauto. }
  destruct Hhead as [x Hx].
  unfold find_paths. rewrite Hf, Hd, Hk, Hu, Hr. cbn [lift mbind M_bind app].
  rewrite Hfold. unfold oxford_test_path, index. rewrite Hx.
  cbn [mret M_ret mbind M_bind app].
  split.
  - intros ->. reflexivity.
  - intros side -> Hl Hrr. cbn [mret M_ret mbind M_bind app].
    unfold getitem. rewrite oxford_side_map_lookup.
    destruct (String.eqb_spec side "l"); [contradiction|].
    destruct (String.eqb_spec side "r"); [contradiction|]. reflexivity.
Qed.

(** The KITTI path finder never produces a path: its side table maps
    to integers, which [os.path.join] refuses. *)
Lemma kitti_test_path_raises (paths : list string) (file : string) :
  exists e, kitti_test_path kitti_side_map paths file = (Raise e, []).
Proof.
  unfold kitti_test_path, index, getitem.
  destruct (Str.split_space file !! 0%nat); [|eauto].
  cbn [mret M_ret mbind M_bind app raise].
  destruct (Str.split_space file !! 2%nat) as [key|]; [|eauto].
  cbn [mret M_ret mbind M_bind app raise].
  destruct (kitti_side_map !! key); [|eauto].
  cbn [mret M_ret mbind M_bind app raise].
  destruct (Str.split_space file !! 1%nat); eauto.
Qed.

(** X3.  With [--dataset KITTI --use_test_set] on a directory, a split file
    with a line in it makes the run fail; a well-formed first line
    ([folder frame_index side] with a side of the table) fails with the
    [TypeError] of [os.path.join].  Only an empty split file gives a
    (empty) list of images. *)
Theorem find_paths_kitti_test_set (lines : list string) :
  isfile rt (image_path a) = false ->
  isdir rt (image_path a) = true ->
  dataset a = KITTI ->
  use_test_set a = true ->
  readlines rt (Posixpath.join test_files_dir ["eigen"; "test_files.txt"])
    = Ok lines ->
  (lines = [] -> find_paths rt a = (Ok [], [])) /\
  (lines <> [] -> exists e, find_paths rt a = (Raise e, [])) /\
  (forall folder frame_index side rest,
     lines = split_line (folder, frame_index, side) :: rest ->
     no_space folder = true -> no_space frame_index = true ->
     side ∈ ["2"; "3"; "l"; "r"] ->
     exists msg, find_paths rt a = (Raise (TypeError msg), [])).
Proof.
  intros Hf Hd Hk Hu Hr. unfold find_paths.
  rewrite Hf, Hd, Hk, Hu, Hr. cbn [lift mbind M_bind app].
  split; [intros ->; reflexivity|]. split.
  - intros Hne. destruct lines as [|l rest]; [contradiction|].
    cbn [for_fold]. destruct (kitti_test_path_raises [] l) as [e ->].
    exists e. reflexivity.
  - intros folder frame_index side rest -> Hfo Hi Hs. cbn [for_fold].
    unfold kitti_test_path.
    assert (Hside : no_space side = true /\ exists z, kitti_side_map !! side = Some z).
    { repeat (apply elem_of_cons in Hs as [-> | Hs]; [split; [reflexivity | eexists; reflexivity]|]).
      inversion Hs. }
    destruct Hside as [Hns [z Hz]].
    rewrite split_space_line by assumption.
    cbn [index lookup list_lookup mbind M_bind mret M_ret app].
    unfold getitem. rewrite Hz. eexists. reflexivity.
Qed.

End FindPaths.

(** ** The prediction loop *)

Section Loop.

Import Array Pil TestSimple Batch.

Variables (rt : runtime) (a : args) (feed_width feed_height : Z)
          (encoder : tensor -> features rt) (depth_decoder : features rt -> array)
          (output_directory : string) (n_paths : nat).

#[local] Abbreviation loop :=
  (predict_loop rt a feed_width feed_height encoder depth_decoder
                output_directory n_paths).

#[local] Abbreviation ready :=
  (frame_ready rt a feed_width feed_height encoder depth_decoder).

Lemma npy_saves_app (t1 t2 : list event) :
  npy_saves (t1 ++ t2) = npy_saves t1 ++ npy_saves t2.
Proof. apply omap_app. Qed.

Lemma image_saves_app (t1 t2 : list event) :
  image_saves (t1 ++ t2) = image_saves t1 ++ image_saves t2.
Proof. apply omap_app. Qed.

Lemma npy_saves_loading (name : string) :
  npy_saves (loading_events rt a name) = [].
Proof. unfold loading_events. now destruct (isdir rt _). Qed.

Lemma image_saves_loading (name : string) :
  image_saves (loading_events rt a name) = [].
Proof. unfold loading_events. now destruct (isdir rt _). Qed.

(** One iteration on a ready path writes its two files. *)
Lemma predict_image_ready (idx : nat) (p : string) :
  ready p ->
  exists f,
    predict_image rt a feed_width feed_height encoder depth_decoder
                  output_directory n_paths idx p
      = (Ok (Some f), frame_events rt a n_paths idx f) /\
    f_name_dest_npy f = npy_name a output_directory p /\
    f_name_dest_im f = im_name output_directory p.
Proof.
  intros (Hend & img & Hopen & Hready). cbv zeta in Hready.
  destruct Hready as [Hne Hnd].
  destruct (predict_image_total rt a feed_width feed_height encoder depth_decoder
              output_directory n_paths idx p img Hend Hopen Hne Hnd) as [f Hf].
  exists f. split; [exact Hf|].
  destruct (predict_image_inv _ _ _ _ _ _ _ _ _ _ f _ Hf)
    as (_ & _ & _ & _ & _ & _ & _ & _ & _ & Hname & _ & _ & _ & Hnpy & Him & _).
  unfold npy_name, im_name, stem. now rewrite Hnpy, Him, Hname.
Qed.

Lemma loop_cons_skip (idx : nat) (p : string) (paths : list string) :
  Str.endswith "_disp.jpg" p = true ->
  loop idx (p :: paths) = loop (S idx) paths.
Proof.
  intros H. unfold predict_loop. cbn [for_enumerate].
  rewrite (predict_image_skip _ _ _ _ _ _ _ _ _ _ H).
  cbn [mbind M_bind mret M_ret app].
  destruct (for_enumerate _ _ _) as [r t]. reflexivity.
Qed.

Lemma loop_cons_ready (idx : nat) (p : string) (paths : list string) :
  ready p ->
  exists f,
    f_name_dest_npy f = npy_name a output_directory p /\
    f_name_dest_im f = im_name output_directory p /\
    loop idx (p :: paths) =
      (fst (loop (S idx) paths),
       frame_events rt a n_paths idx f ++ snd (loop (S idx) paths)).
Proof.
  intros Hp. destruct (predict_image_ready idx p Hp) as (f & Hf & Hn & Hi).
  exists f. split; [exact Hn|]. split; [exact Hi|].
  unfold predict_loop. cbn [for_enumerate]. rewrite Hf.
  cbn [mbind M_bind mret M_ret app]. rewrite app_nil_r.
  destruct (for_enumerate _ _ _) as [r t]. reflexivity.
Qed.

Lemma predict_loop_saves (paths : list string) (idx : nat) :
  Forall ready (processed paths) ->
  exists t,
    loop idx paths = (Ok tt, t) /\
    map fst (npy_saves t) = map (npy_name a output_directory) (processed paths) /\
    map fst (image_saves t) = map (im_name output_directory) (processed paths).
Proof.
  revert idx. induction paths as [|p paths IH]; intros idx Hall.
  - exists []. repeat split.
  - unfold processed in Hall |- *. cbn [List.filter] in Hall |- *.
    destruct (Str.endswith "_disp.jpg" p) eqn:Hskip; cbn [negb] in Hall |- *.
    + rewrite (loop_cons_skip _ _ _ Hskip). apply IH, Hall.
    + apply Forall_cons in Hall as [Hp Hall].
      destruct (IH (S idx) Hall) as (t & Ht & Hn & Hi).
      destruct (loop_cons_ready idx p paths Hp) as (f & Hfn & Hfi & Hl).
      rewrite Ht in Hl. cbn [fst snd] in Hl.
      eexists. split; [exact Hl|].
      rewrite npy_saves_app, image_saves_app, !map_app.
      rewrite npy_saves_frame_events, image_saves_frame_events.
      cbn [map fst app]. now rewrite Hfn, Hfi, Hn, Hi.
Qed.

(** X4.  When every path that is not skipped is ready, the loop completes
    and writes one [.npy] and one image per such path, in the order of
    the paths and under the names of their stems. *)
Theorem loop_writes_one_pair_per_image (paths : list string) (idx : nat) :
  Forall ready (processed paths) ->
  exists t,
    loop idx paths = (Ok tt, t) /\
    map fst (npy_saves t) = map (npy_name a output_directory) (processed paths) /\
    map fst (image_saves t) = map (im_name output_directory) (processed paths).
Proof. apply predict_loop_saves. Qed.

(** X5.  An image that does not open stops the run with its exception: the
    files of the images before it have been written, nothing is written
    for the images after it. *)
Theorem loop_stops_at_unreadable_image
    (before after : list string) (p : string) (e : exn) (idx : nat) :
  Forall ready (processed before) ->
  Str.endswith "_disp.jpg" p = false ->
  pil_open rt p = Raise e ->
  exists t,
    loop idx (before ++ p :: after) = (Raise e, t) /\
    map fst (npy_saves t) = map (npy_name a output_directory) (processed before) /\
    map fst (image_saves t) = map (im_name output_directory) (processed before).
Proof.
  intros Hall Hend Hopen. revert idx Hall.
  induction before as [|q before IH]; intros idx Hall.
  - exists []. split; [|split; reflexivity].
    unfold predict_loop. cbn [app for_enumerate].
    unfold predict_image. rewrite Hend, Hopen. reflexivity.
  - unfold processed in Hall |- *. cbn [List.filter app] in Hall |- *.
    destruct (Str.endswith "_disp.jpg" q) eqn:Hskip; cbn [negb] in Hall |- *.
    + rewrite (loop_cons_skip _ _ _ Hskip). apply IH, Hall.
    + apply Forall_cons in Hall as [Hq Hall].
      destruct (IH (S idx) Hall) as (t & Ht & Hn & Hi).
      destruct (loop_cons_ready idx q (before ++ p :: after) Hq) as (f & Hfn & Hfi & Hl).
      rewrite Ht in Hl. cbn [fst snd] in Hl.
      eexists. split; [exact Hl|].
      rewrite npy_saves_app, image_saves_app, !map_app.
      rewrite npy_saves_frame_events, image_saves_frame_events.
      cbn [map fst app]. now rewrite Hfn, Hfi, Hn, Hi.
Qed.

End Loop.

(** ** Whole runs *)

Section Runs.

Import Array Pil TestSimple Batch.

Variables (rt : runtime) (a : args) (name : string).

#[local] Abbreviation device_of :=
  (if cuda_is_available rt && negb (no_cuda a) then Cuda else Cpu).

(** Once the model is loaded and the images are found, a run is the
    prediction loop between two messages. *)
Lemma run_model_paths (feed_height feed_width : Z)
    (encoder : tensor -> features rt) (depth_decoder : features rt -> array)
    (paths : list string) :
  model_loads rt a name feed_height feed_width encoder depth_decoder ->
  find_paths rt a = (Ok paths, []) ->
  let l := predict_loop rt a feed_width feed_height encoder depth_decoder
             (output_directory_of a) (length paths) 0 paths in
  run_model rt a name device_of =
    (fst l,
     loading_events rt a name
     ++ [Print [PStr ("-> Predicting on " +:+ pretty (length paths) +:+ " test images")]]
     ++ snd l
     ++ match fst l with Ok _ => [Print [PStr "-> Done!"]] | Raise _ => [] end).
Proof.
  intros (Hdl & Hres & Henc & Hdec) Hfind l.
  unfold run_model. rewrite Hdl.
  cbn [lift mbind M_bind print emit mret M_ret app].
  assert (Hnum : (if (resnet a =? 18)%Z then mret 18%Z
                  else if (resnet a =? 50)%Z then mret 50%Z
                  else raise (Exception ("Can not find resnet " +:+ pretty (resnet a))))
                 = (Ok (resnet a), [])).
  { destruct Hres as [E | E]; rewrite E; reflexivity. }
  rewrite Hnum. cbn [mbind M_bind app]. rewrite Henc.
  cbn [mbind M_bind print emit mret M_ret app]. rewrite Hdec.
  cbn [mbind M_bind print emit mret M_ret app].
  fold (output_directory_of a). rewrite Hfind.
  cbn [mbind M_bind print emit mret M_ret app].
  fold (predict_loop rt a feed_width feed_height encoder depth_decoder
          (output_directory_of a) (length paths) 0 paths). fold l.
  unfold loading_events.
  destruct l as [[[]|e] t]; cbn [fst snd mbind M_bind app];
    destruct (isdir rt (output_directory_of a));
    cbn [negb when mbind M_bind print emit mret M_ret app];
    rewrite ?app_nil_r; reflexivity.
Qed.


(** X6.  On a directory without [--use_test_set] a run loads the model,
    announces zero images and is done: whatever the directory holds, no
    image is opened and no file is written. *)
Theorem run_on_directory_without_test_set (feed_height feed_width : Z)
    (encoder : tensor -> features rt) (depth_decoder : features rt -> array) :
  model_loads rt a name feed_height feed_width encoder depth_decoder ->
  isfile rt (image_path a) = false ->
  isdir rt (image_path a) = true ->
  use_test_set a = false ->
  run_model rt a name device_of =
    (Ok tt,
     loading_events rt a name
     ++ [Print [PStr "-> Predicting on 0 test images"]; Print [PStr "-> Done!"]]).
Proof.
  intros Hload Hf Hd Hu.
  assert (Hfind : find_paths rt a = (Ok [], [])).
  { unfold find_paths. rewrite Hf, Hd, Hu. now destruct (dataset a). }
  rewrite (run_model_paths _ _ _ _ [] Hload Hfind). reflexivity.
Qed.

(** X7.  A run over an Oxford split file whose entries are well formed and
    whose images are ready completes with one [.npy] and one image per
    image that is not skipped, named after the stems, in the order of
    the split file. *)
Theorem run_on_oxford_test_set (feed_height feed_width : Z)
    (encoder : tensor -> features rt) (depth_decoder : features rt -> array)
    (ls : list (string * string * string)) :
  model_loads rt a name feed_height feed_width encoder depth_decoder ->
  isfile rt (image_path a) = false ->
  isdir rt (image_path a) = true ->
  dataset a = OXFORD ->
  use_test_set a = true ->
  readlines rt (Posixpath.join test_files_dir ["oxford"; "test_files.txt"])
    = Ok (map split_line ls) ->
  Forall oxford_entry_ok ls ->
  let paths := processed (map oxford_entry_path ls) in
  Forall (frame_ready rt a feed_width feed_height encoder depth_decoder) paths ->
  exists t,
    run_model rt a name device_of = (Ok tt, t) /\
    map fst (npy_saves t) = map (npy_name a (output_directory_of a)) paths /\
    map fst (image_saves t) = map (im_name (output_directory_of a)) paths.
Proof.
  intros Hload Hf Hd Hk Hu Hr Hls paths Hready.
  assert (Hfind : find_paths rt a = (Ok (map oxford_entry_path ls), [])).
  { unfold find_paths. rewrite Hf, Hd, Hk, Hu, Hr. cbn [lift mbind M_bind app].
    rewrite (oxford_for_fold_ok ls Hls []). reflexivity. }
  rewrite (run_model_paths _ _ _ _ _ Hload Hfind).
  destruct (predict_loop_saves rt a feed_width feed_height encoder
              depth_decoder (output_directory_of a)
              (length (map oxford_entry_path ls)) (map oxford_entry_path ls) 0 Hready)
    as (t & Ht & Hn & Hi).
  rewrite Ht. cbn [fst snd]. eexists. split; [reflexivity|].
  rewrite !npy_saves_app, !image_saves_app, npy_saves_loading, image_saves_loading.
  change (npy_saves [Print [PStr "-> Done!"]]) with (@nil (string * array)).
  change (image_saves [Print [PStr "-> Done!"]])
    with (@nil (string * list (list pixel))).
  cbn [app npy_saves image_saves omap list_omap].
  fold (npy_saves t). fold (image_saves t).
  now rewrite !app_nil_r, Hn, Hi.
Qed.


(** X9.  A [--resnet] other than 18 and 50 raises before any checkpoint is
    read: the run has printed two lines and made no directory. *)
Theorem run_with_unknown_resnet :
  download_model_if_doesnt_exist rt name = Ok tt ->
  resnet a <> 18 -> resnet a <> 50 ->
  run_model rt a name device_of =
    (Raise (Exception ("Can not find resnet " +:+ pretty (resnet a))),
     [Print [PStr "-> Loading model from "; PStr (Posixpath.join "models" [name])];
      Print [PStr "   Loading pretrained encoder"]]).
Proof.
  intros Hdl H18 H50. unfold run_model. rewrite Hdl.
  cbn [lift mbind M_bind print emit mret M_ret app].
  destruct (Z.eqb_spec (resnet a) 18) as [E|_]; [contradiction|].
  destruct (Z.eqb_spec (resnet a) 50) as [E|_]; [contradiction|].
  reflexivity.
Qed.

End Runs.

(** ** Stems and output names *)

Section OutputNames.

Import Posixpath Array Pil TestSimple Batch.

Lemma rfind_from_range (c : ascii) (s : string) (i best : Z) :
  rfind_from c s i best = best \/
  (i <= rfind_from c s i best < i + Z.of_nat (String.length s))%Z.
Proof.
  revert i best. induction s as [|d s IH]; intros i best; [now left|].
  cbn [rfind_from String.length].
  destruct (IH (i + 1)%Z (if Ascii.eqb d c then i else best)) as [E | H].
  - rewrite E. destruct (Ascii.eqb d c); [right; lia | now left].
  - right. lia.
Qed.

Lemma rfind_from_append (c : ascii) (s t : string) (i best : Z) :
  rfind_from c (s +:+ t) i best
    = rfind_from c t (i + Z.of_nat (String.length s)) (rfind_from c s i best).
Proof.
  revert i best. induction s as [|d s IH]; intros i best.
  - cbn. now rewrite Z.add_0_r.
  - change (String d s +:+ t) with (String d (s +:+ t)).
    cbn [rfind_from String.length]. rewrite IH. f_equal. lia.
Qed.

Lemma rfind_from_lacks (c : ascii) (s : string) (i best : Z) :
  lacks c s = true -> rfind_from c s i best = best.
Proof.
  revert i best. induction s as [|d s IH]; intros i best; [reflexivity|].
  cbn [lacks rfind_from]. intros H. apply andb_true_iff in H as [Hd Hs].
  apply negb_true_iff in Hd. rewrite Hd. now apply IH.
Qed.

Lemma lacks_slash (s : string) : lacks "/" s = negb (has_slash s).
Proof.
  induction s as [|d s IH]; [reflexivity|].
  cbn [lacks has_slash]. rewrite IH. now destruct (Ascii.eqb d "/").
Qed.

Lemma all_dots_lacks (s : string) :
  s <> "" -> lacks "." s = true -> all_dots s = false.
Proof.
  destruct s as [|d s]; [contradiction|]. intros _. cbn [lacks all_dots].
  intros H. apply andb_true_iff in H as [Hd _]. apply negb_true_iff in Hd.
  now rewrite Hd.
Qed.

Lemma substring_prefix (s t : string) :
  substring 0 (String.length s) (s +:+ t) = s.
Proof.
  induction s as [|c s IH]; [now destruct t|].
  change (String c s +:+ t) with (String c (s +:+ t)).
  cbn [String.length substring]. now rewrite IH.
Qed.

(** [splitext] only cuts: stem and extension make up the path again. *)
Lemma splitext_append (p : string) :
  fst (splitext p) +:+ snd (splitext p) = p.
Proof.
  unfold splitext.
  destruct ((rfind "/" p <? rfind "." p)%Z && _) eqn:E; cbn [fst snd].
  - apply andb_true_iff in E as [E _]. apply Z.ltb_lt in E.
    apply substring_split. unfold rfind in *.
    destruct (rfind_from_range "/" p 0 (-1)) as [Hs | Hs];
      destruct (rfind_from_range "." p 0 (-1)) as [Hd | Hd]; lia.
  - clear E. induction p as [|c p IH]; [reflexivity|].
    change (String c (p +:+ "") = String c p). now rewrite IH.
Qed.

(** X10.  The stem of [dir/name.ext], for a [name] and an [ext] without
    separator and dot, is [name]. *)
Theorem stem_of_plain_path (dir name ext : string) :
  name <> "" ->
  lacks "/" name = true -> lacks "." name = true ->
  lacks "/" ext = true -> lacks "." ext = true ->
  stem (dir +:+ "/" +:+ name +:+ "." +:+ ext) = name.
Proof.
  intros Hne Hns Hnd Hes Hed. unfold stem.
  assert (Hfile : has_slash (name +:+ "." +:+ ext) = false).
  { rewrite !has_slash_append. rewrite lacks_slash in Hns, Hes.
    apply negb_true_iff in Hns, Hes. now rewrite Hns, Hes. }
  assert (Hbase : basename (dir +:+ "/" +:+ name +:+ "." +:+ ext)
                  = name +:+ "." +:+ ext).
  { rewrite <- append_assoc, (basename_append _ _ Hfile).
    rewrite (basename_endswith_slash (dir +:+ "/")); [reflexivity|].
    now rewrite endswith_slash_append. }
  rewrite Hbase. unfold splitext, rfind.
  assert (Hsep : rfind_from "/" (name +:+ "." +:+ ext) 0 (-1) = (-1)%Z).
  { apply rfind_from_lacks. rewrite lacks_slash, Hfile. reflexivity. }
  assert (Hdot : rfind_from "." (name +:+ "." +:+ ext) 0 (-1)
                 = Z.of_nat (String.length name)).
  { rewrite rfind_from_append, (rfind_from_lacks "." name _ _ Hnd).
    change ("." +:+ ext) with (String "." ext). cbn [rfind_from Ascii.eqb Bool.eqb].
    rewrite (rfind_from_lacks "." ext _ _ Hed). lia. }
  rewrite Hsep, Hdot.
  change (-1 + 1)%Z with 0%Z. rewrite Z.sub_0_r, Nat2Z.id.
  change (Z.to_nat 0) with 0%nat.
  rewrite substring_prefix, (all_dots_lacks _ Hne Hnd).
  destruct (Z.ltb_spec (-1) (Z.of_nat (String.length name))) as [_|H]; [|lia].
  reflexivity.
Qed.


Lemma endswith_append (suf y t : string) :
  (String.length suf <= String.length t)%nat ->
  Str.endswith suf (y +:+ t) = Str.endswith suf t.
Proof.
  intros H. unfold Str.endswith. rewrite length_append.
  replace (String.length y + String.length t - String.length suf)%nat
    with (String.length y + (String.length t - String.length suf))%nat by lia.
  rewrite substring_append_skip.
  destruct (Nat.leb_spec (String.length suf) (String.length t)) as [_|H']; [|lia].
  destruct (Nat.leb_spec (String.length suf) (String.length y + String.length t))
    as [_|H']; [reflexivity | lia].
Qed.

Lemma join_one_suffix (dir x suf : string) :
  exists y, join dir [x +:+ suf] = y +:+ suf.
Proof.
  unfold join; cbn [fold_left]. unfold join_step.
  destruct (startswith "/" (x +:+ suf)); [now exists x|].
  destruct (_ || _).
  - exists (dir +:+ x). now rewrite append_assoc.
  - exists (dir +:+ "/" +:+ x). now rewrite !append_assoc.
Qed.

(** X11.  The files a run writes are not among those line 195 skips: they
    end in [_disp.jpeg], [_disp.npy] or [_depth.npy], not in
    [_disp.jpg]. *)
Theorem written_files_are_not_skipped (a : args) (output_directory p : string) :
  Str.endswith "_disp.jpg" (im_name output_directory p) = false /\
  Str.endswith "_disp.jpg" (npy_name a output_directory p) = false.
Proof.
  unfold im_name, npy_name. split.
  - destruct (join_one_suffix output_directory (stem p) "_disp.jpeg") as [y ->].
    now rewrite endswith_append by (cbn; lia).
  - destruct (pred_metric_depth a).
    + destruct (join_one_suffix output_directory (stem p) "_depth.npy") as [y ->].
      now rewrite endswith_append by (cbn; lia).
    + destruct (join_one_suffix output_directory (stem p) "_disp.npy") as [y ->].
      now rewrite endswith_append by (cbn; lia).
Qed.

(** X12.  An iteration is a skip exactly for the paths that end in
    [_disp.jpg]; a skip prints and writes nothing. *)
Theorem predict_image_skips_iff (rt : runtime) (a : args) (feed_width feed_height : Z)
    (encoder : tensor -> features rt) (depth_decoder : features rt -> array)
    (output_directory : string) (n_paths idx : nat) (image_path : string)
    (t : list event) :
  predict_image rt a feed_width feed_height encoder depth_decoder
                output_directory n_paths idx image_path = (Ok None, t)
  <-> (exists pre, image_path = pre +:+ "_disp.jpg") /\ t = [].
Proof.
  rewrite <- endswith_iff. split.
  - unfold predict_image.
    destruct (Str.endswith "_disp.jpg" image_path); [now intros [= <-]|].
    destruct (pil_open rt image_path) as [img|e]; [|discriminate].
    cbn [lift mbind M_bind].
    destruct (disp_to_depth rt _ _ _) as [scaled_disp depth].
    destruct (pred_metric_depth a), (dataset a);
      cbn [mbind M_bind print emit mret M_ret app lift size];
      destruct (percentile _ _); try discriminate;
      destruct (amin _); try discriminate;
      cbn [mbind M_bind print emit mret M_ret app lift];
      destruct (squeezed_ndim _) as [|[|[|n]]]; discriminate.
  - intros [H ->]. now apply predict_image_skip.
Qed.

(** X13.  Two images with the same file name in different directories are
    written to the same two files: the later iteration overwrites the
    earlier one. *)
Theorem same_file_name_same_output (rt : runtime) (a : args)
    (feed_width feed_height : Z)
    (encoder : tensor -> features rt) (depth_decoder : features rt -> array)
    (output_directory : string) (n_paths idx1 idx2 : nat)
    (dir1 dir2 file : string) (f1 f2 : frame) (t1 t2 : list event) :
  has_slash file = false ->
  predict_image rt a feed_width feed_height encoder depth_decoder
                output_directory n_paths idx1 (dir1 +:+ "/" +:+ file)
    = (Ok (Some f1), t1) ->
  predict_image rt a feed_width feed_height encoder depth_decoder
                output_directory n_paths idx2 (dir2 +:+ "/" +:+ file)
    = (Ok (Some f2), t2) ->
  map fst (npy_saves t1) = map fst (npy_saves t2) /\
  map fst (image_saves t1) = map fst (image_saves t2).
Proof.
  intros Hfile H1 H2.
  assert (Hbase : forall dir, basename (dir +:+ "/" +:+ file) = file).
  { intros dir. rewrite <- append_assoc, (basename_append _ _ Hfile).
    rewrite (basename_endswith_slash (dir +:+ "/")); [reflexivity|].
    now rewrite endswith_slash_append. }
  destruct (predict_image_inv _ _ _ _ _ _ _ _ _ _ f1 t1 H1)
    as (_ & _ & _ & _ & _ & _ & _ & _ & _ & Hn1 & _ & _ & _ & Hnpy1 & Him1 & ->).
  destruct (predict_image_inv _ _ _ _ _ _ _ _ _ _ f2 t2 H2)
    as (_ & _ & _ & _ & _ & _ & _ & _ & _ & Hn2 & _ & _ & _ & Hnpy2 & Him2 & ->).
  rewrite !npy_saves_frame_events, !image_saves_frame_events. cbn [map fst].
  rewrite Hnpy1, Hnpy2, Him1, Him2, Hn1, Hn2, !Hbase. split; reflexivity.
Qed.

End OutputNames.

(** ** The principal point after a crop *)

(** X14.  The crop moves the principal point by the origin of the window and
    half a pixel: in pixels of the sensor, [cx - x0 - 1/2] and
    [cy - y0 - 1/2].  The far corner of the window plays no part. *)
Theorem principal_point_follows_crop_origin
    (W H : Z) (fxp fyp cxp cyp : Q) (b b' : crop_box) :
  W <> 0 -> H <> 0 ->
  let l := intrinsics_locals W H fxp fyp cxp cyp b in
  let l' := intrinsics_locals W H fxp fyp cxp cyp b' in
  (l_crop_cx l * inject_Z W == cxp - inject_Z (box_x0 b) - 1 / 2)%Q /\
  (l_crop_cy l * inject_Z H == cyp - inject_Z (box_y0 b) - 1 / 2)%Q /\
  (box_x0 b' = box_x0 b -> l_crop_cx l' == l_crop_cx l)%Q /\
  (box_y0 b' = box_y0 b -> l_crop_cy l' == l_crop_cy l)%Q.
Proof.
  intros HW HH l l'.
  assert (HW' : ~ (inject_Z W == 0)%Q).
  { intros E. apply HW. now apply (proj1 (inject_Z_injective W 0)). }
  assert (HH' : ~ (inject_Z H == 0)%Q).
  { intros E. apply HH. now apply (proj1 (inject_Z_injective H 0)). }
  assert (Ex : forall c, (l_crop_cx (intrinsics_locals W H fxp fyp cxp cyp c) * inject_Z W
                          == cxp - inject_Z (box_x0 c) - 1 / 2)%Q).
  { intros [[[x0 y0] x1] y1]. cbn.
    unfold Z.sub. rewrite !inject_Z_plus, !inject_Z_opp.
    change (inject_Z 1) with 1%Q. now field. }
  assert (Ey : forall c, (l_crop_cy (intrinsics_locals W H fxp fyp cxp cyp c) * inject_Z H
                          == cyp - inject_Z (box_y0 c) - 1 / 2)%Q).
  { intros [[[x0 y0] x1] y1]. cbn.
    unfold Z.sub. rewrite !inject_Z_plus, !inject_Z_opp.
    change (inject_Z 1) with 1%Q. now field. }
  split; [apply Ex|]. split; [apply Ey|]. split.
  - intros E. apply (Qmult_inj_r _ _ (inject_Z W) HW').
    subst l l'. now rewrite !Ex, E.
  - intros E. apply (Qmult_inj_r _ _ (inject_Z H) HH').
    subst l l'. now rewrite !Ey, E.
Qed.

(** ** The range of the visualization *)

Section Visualization.

Import Array Pil TestSimple.

(** X15.  Under the normalization of an iteration every entry of the
    disparity it shows is mapped to [0] or above; the entries up to the
    95th percentile are mapped into [[0, 1]], those above it beyond [1].
    When minimum and percentile coincide everything is mapped to [0]. *)
Theorem shown_values_normalized
    (rt : runtime) (a : args) (feed_width feed_height : Z)
    (encoder : tensor -> features rt) (depth_decoder : features rt -> array)
    (output_directory : string) (n_paths idx : nat) (image_path : string)
    (f : frame) (t : list event) (x : Q) :
  predict_image rt a feed_width feed_height encoder depth_decoder
                output_directory n_paths idx image_path = (Ok (Some f), t) ->
  x ∈ flatten (f_disp_resized f) ->
  let norm := f_normalizer f in
  (0 <= normalize norm x)%Q /\
  (x <= vmax norm -> normalize norm x <= 1)%Q /\
  (vmin norm < vmax norm -> vmax norm < x -> 1 < normalize norm x)%Q /\
  (vmin norm == vmax norm -> normalize norm x = 0)%Q.
Proof.
  intros Hrun Hx norm.
  destruct (predict_image_inv _ _ _ _ _ _ _ _ _ _ f t Hrun)
    as (_ & _ & _ & _ & _ & _ & _ & _ & _ & _ & _ & Hp & Hm & _).
  fold norm in Hp, Hm.
  pose proof (amin_le_percentile _ 95%Q _ _ ltac:(lra) Hm Hp) as Hle.
  destruct (amin_spec _ _ Hm) as [_ Hall]. rewrite Forall_forall in Hall.
  specialize (Hall x Hx).
  unfold normalize.
  destruct (Qeq_bool (vmin norm) (vmax norm)) eqn:E.
  - apply Qeq_bool_iff in E.
    split; [apply Qle_refl|]. split; [intros _; discriminate|].
    split; [intros Hlt; exfalso; lra | reflexivity].
  - apply Qeq_bool_neq in E.
    assert (Hpos : (0 < vmax norm - vmin norm)%Q) by lra.
    split; [|split; [|split]].
    + apply Qle_shift_div_l; [exact Hpos | lra].
    + intros Hxv. apply Qle_shift_div_r; [exact Hpos | lra].
    + intros _ Hxv. apply Qlt_shift_div_l; [exact Hpos | lra].
    + intros Heq. contradiction.
Qed.

End Visualization.

(** ** [get_color] *)

(** X16.  [get_color] fails with [KeyError] on a side outside of the table
    without calling the loader, passes the exception of the loader on,
    and otherwise hands the loaded image and the crop window of the
    dataset, [(0, 300, 1280, 760)], to the transform.  It does the same
    whether or not a flip is asked for. *)
Theorem get_color_crops_and_never_flips
    (ext : string) (loader : string -> result Pil.image)
    (tr : Pil.image -> crop_box -> Pil.image)
    (folder frame_index side : string) (do_flip : bool) :
  let d := init ext in
  let color := OxfordLoader.get_color d loader (Some tr) folder frame_index side in
  color do_flip = color (negb do_flip) /\
  (side <> "l" -> side <> "r" -> color do_flip = Raise (KeyError side)) /\
  (forall side_name, (side = "l" /\ side_name = "left") \/
                     (side = "r" /\ side_name = "right") ->
     let path := Posixpath.join folder [side_name; frame_index +:+ ext] in
     (forall e, loader path = Raise e -> color do_flip = Raise e) /\
     (forall img, loader path = Ok img ->
        color do_flip = Ok (tr img (0, 300, 1280, 760)))).
Proof.
  intros d color. subst d color. unfold OxfordLoader.get_color, get_image_path.
  rewrite side_map_lookup.
  split; [reflexivity|]. split.
  - intros Hl Hr.
    destruct (String.eqb_spec side "l"); [contradiction|].
    destruct (String.eqb_spec side "r"); [contradiction|]. reflexivity.
  - intros side_name [[-> ->] | [-> ->]]; cbn [String.eqb Ascii.eqb Bool.eqb];
      (split; [intros e He | intros img Hi]);
      cbn [ds_img_ext init ds_crop_area] in *; rewrite ?He, ?Hi; reflexivity.
Qed.

(** ** When the warning is printed *)

Section Warning.

Import Array Pil TestSimple.

(** No event of the trace is the warning. *)
#[local] Abbreviation quiet :=
  (Forall (fun e : event => e <> Print [PStr warning])).

Lemma quiet_bind {A B : Type} (m : M A) (k : A -> M B) :
  quiet (snd m) -> (forall x, quiet (snd (k x))) -> quiet (snd (m ≫= k)).
Proof.
  intros Hm Hk. destruct m as [[x|e] t]; cbn [mbind M_bind snd] in *; [|exact Hm].
  specialize (Hk x). destruct (k x) as [r t']. cbn [snd] in *.
  now apply Forall_app.
Qed.

Lemma quiet_lift {A : Type} (r : result A) : quiet (snd (lift r)).
Proof. constructor. Qed.

Lemma quiet_mret {A : Type} (x : A) : quiet (snd (mret x : M A)).
Proof. constructor. Qed.

Lemma quiet_raise {A : Type} (e : exn) : quiet (snd (raise e : M A)).
Proof. constructor. Qed.

Lemma quiet_emit (e : event) : e <> Print [PStr warning] -> quiet (snd (emit e)).
Proof. intros H. repeat constructor. exact H. Qed.

Lemma quiet_for_enumerate {A : Type} (body : nat -> A -> M unit) (l : list A) :
  (forall i x, quiet (snd (body i x))) ->
  forall idx, quiet (snd (for_enumerate body idx l)).
Proof.
  intros Hb. induction l as [|x l IH]; intros idx; cbn [for_enumerate].
  - apply quiet_mret.
  - apply quiet_bind; [apply Hb | intros _; apply IH].
Qed.

Lemma quiet_for_fold {A S : Type} (body : S -> A -> M S) (l : list A) :
  (forall acc x, quiet (snd (body acc x))) ->
  forall acc, quiet (snd (for_fold body acc l)).
Proof.
  intros Hb. induction l as [|x l IH]; intros acc; cbn [for_fold].
  - apply quiet_mret.
  - apply quiet_bind; [apply Hb | intros acc'; apply IH].
Qed.

(** Closes the goals [quiet (snd m)] for the monadic code of the
    driver. *)
Ltac quiet_step :=
  match goal with
  | |- quiet (snd (_ ≫= _)) => apply quiet_bind; [|intros ?]
  | |- quiet (snd (lift _)) => apply quiet_lift
  | |- quiet (snd (mret _)) => apply quiet_mret
  | |- quiet (snd (raise _)) => apply quiet_raise
  | |- quiet (snd (index _ _)) => unfold index
  | |- quiet (snd (getitem _ _)) => unfold getitem
  | |- quiet (snd (print _)) =>
      apply quiet_emit; intros H; injection H as H; cbn in H; discriminate H
  | |- quiet (snd (emit _)) => apply quiet_emit; discriminate
  | |- quiet (snd (when ?b _)) => destruct b; cbn [when]
  | |- quiet (snd (for_fold _ _ _)) => apply quiet_for_fold; intros ? ?
  | |- quiet (snd (for_enumerate _ _ _)) => apply quiet_for_enumerate; intros ? ?
  | |- quiet (snd (match ?x with _ => _ end)) => destruct x
  | |- quiet (snd (let '(_, _) := ?x in _)) => destruct x
  end.

Lemma quiet_predict_image (rt : runtime) (a : args) (feed_width feed_height : Z)
    (encoder : tensor -> features rt) (depth_decoder : features rt -> array)
    (output_directory : string) (n_paths idx : nat) (image_path : string) :
  quiet (snd (predict_image rt a feed_width feed_height encoder depth_decoder
                            output_directory n_paths idx image_path)).
Proof. unfold predict_image. repeat quiet_step. Qed.

Lemma quiet_find_paths (rt : runtime) (a : args) : quiet (snd (find_paths rt a)).
Proof. unfold find_paths, kitti_test_path, oxford_test_path. repeat quiet_step. Qed.

Lemma quiet_run_model (rt : runtime) (a : args) (name : string) (dev : device) :
  quiet (snd (run_model rt a name dev)).
Proof.
  unfold run_model. repeat quiet_step;
    try apply quiet_find_paths; try apply quiet_predict_image.
Qed.

(** X17.  The warning is among the events of a run exactly when metric depth
    is asked for a model whose name does not contain [stereo]. *)
Theorem warning_printed_iff (rt : runtime) (a : args) :
  Print [PStr warning] ∈ snd (test_simple rt a)
  <-> exists name,
        model_name a = Some name /\
        pred_metric_depth a = true /\ Str.contains "stereo" name = false.
Proof.
  destruct (model_name a) as [name|] eqn:Hn.
  - rewrite (test_simple_unfold rt a name Hn). cbn [snd].
    pose proof (quiet_run_model rt a name
                  (if cuda_is_available rt && negb (no_cuda a) then Cuda else Cpu)) as Hq.
    rewrite Forall_forall in Hq.
    destruct (pred_metric_depth a) eqn:Hm, (Str.contains "stereo" name) eqn:Hs;
      cbn [andb negb app]; split;
      try (intros Hin; exfalso; exact (Hq _ Hin eq_refl));
      try (intros (name' & [= <-] & Hm' & Hs'); congruence).
    + intros _. exists name. repeat split. exact Hs.
    + intros _. left.
  - unfold test_simple. rewrite Hn. cbn [mbind M_bind raise snd]. split.
    + intros Hin. inversion Hin.
    + intros (name & Hname & _). discriminate Hname.
Qed.

End Warning.

(** ** Images one pixel high or wide *)

(** X18.  When the disparity interpolated for an image has an element
    but not two axes after the squeeze of line 242 (the image, or its
    crop, is one pixel high or wide), the iteration writes the [.npy]
    file and then raises at line 246, [IndexError] when one axis is
    left: no image file is written and nothing is printed after
    [np.save]. *)
Theorem one_pixel_image_fails_after_npy
    (rt : runtime) (a : args) (feed_width feed_height : Z)
    (encoder : tensor -> features rt) (depth_decoder : features rt -> array)
    (output_directory : string) (n_paths idx : nat) (image_path : string)
    (img : image) :
  Str.endswith "_disp.jpg" image_path = false ->
  pil_open rt image_path = Ok img ->
  let input := cropped_input a img in
  let disp :=
    depth_decoder (encoder (ToTensor (resize rt input (feed_width, feed_height) LANCZOS))) in
  let shown := interpolate rt disp (im_height input, im_width input) Bilinear false in
  let stem := fst (Posixpath.splitext (Posixpath.basename image_path)) in
  flatten shown <> [] ->
  squeezed_ndim shown <> 2%nat ->
  exists e,
    predict_image rt a feed_width feed_height encoder depth_decoder
                  output_directory n_paths idx image_path
      = (Raise e,
         scale_factor_prints rt a ++
         [NpSave (Posixpath.join output_directory
                    [stem +:+ (if pred_metric_depth a then "_depth.npy"
                               else "_disp.npy")])
                 (if pred_metric_depth a then
                    scale match dataset a with
                          | KITTI => STEREO_SCALE_FACTOR rt
                          | OXFORD => (0.24 / 0.1)%Q
                          end (snd (disp_to_depth rt disp 0.1 100))
                  else fst (disp_to_depth rt disp 0.1 100))]) /\
    (squeezed_ndim shown = 1%nat -> e = IndexError).
Proof.
  intros Hend Hopen input disp shown stem Hne Hnd.
  destruct (percentile_defined _ 95%Q Hne ltac:(lra)) as [hi Ep].
  destruct (amin_defined _ Hne) as [lo Em].
  subst shown disp input stem. unfold cropped_input in *.
  unfold predict_image, scale_factor_prints.
  rewrite Hend, Hopen. cbn [lift mbind M_bind].
  destruct (disp_to_depth rt _ _ _) as [scaled_disp depth] eqn:Ed.
  destruct (pred_metric_depth a), (dataset a);
    cbn [mbind M_bind print emit mret M_ret app lift size fst snd];
    rewrite Ep, Em;
    cbn [mbind M_bind print emit mret M_ret app lift];
    destruct (squeezed_ndim _) as [|[|[|n]]]; try contradiction;
    cbn [mbind M_bind print emit mret M_ret app lift raise];
    eexists; (split; [reflexivity|]);
    intros; try discriminate; reflexivity.
Qed.

(** ** The further properties on the small runtimes *)

Section Witnesses.

Import Array Pil TestSimple Batch.

Lemma principal_point_follows_crop_origin_witness :
  (l_crop_cx init_locals * 1280 == 643.646973 - 0 - 1 / 2)%Q /\
  (l_crop_cy init_locals * 960 == 493.378998 - 300 - 1 / 2)%Q.
Proof.
  destruct (principal_point_follows_crop_origin
              1280 960 fx_px fy_px cx_px cy_px OxfordDataset.crop_area
              OxfordDataset.crop_area ltac:(discriminate) ltac:(discriminate))
    as (Hx & Hy & _).
  split; [exact Hx | exact Hy].
Defined.

Lemma find_paths_oxford_test_set_witness :
  find_paths (directory_runtime ["/d 1 l"; "/d 2 r"])
             (directory_args "/data" OXFORD true 18)
    = (Ok ["/d/left/1.jpg"; "/d/right/2.jpg"], []).
Proof.
  apply (find_paths_oxford_test_set
           (directory_runtime ["/d 1 l"; "/d 2 r"])
           (directory_args "/data" OXFORD true 18)
           [("/d", "1", "l"); ("/d", "2", "r")]);
    try reflexivity.
  repeat (constructor; [repeat split; auto|]). constructor.
Defined.

Lemma find_paths_oxford_bad_line_witness :
  find_paths (directory_runtime ["/d 1 l"; "/d 2"; "/d 3 r"])
             (directory_args "/data" OXFORD true 18)
    = (Raise IndexError, []) /\
  find_paths (directory_runtime ["/d 1 l"; "/d 2 c"; "/d 3 r"])
             (directory_args "/data" OXFORD true 18)
    = (Raise (KeyError "c"), []).
Proof.
  split.
  - apply (find_paths_oxford_bad_line
             (directory_runtime ["/d 1 l"; "/d 2"; "/d 3 r"])
             (directory_args "/data" OXFORD true 18)
             [("/d", "1", "l")] "/d 2" ["/d 3 r"]);
      try reflexivity.
    repeat (constructor; [repeat split; auto|]). constructor.
  - refine (proj2 (find_paths_oxford_bad_line
             (directory_runtime ["/d 1 l"; "/d 2 c"; "/d 3 r"])
             (directory_args "/data" OXFORD true 18)
             [("/d", "1", "l")] "/d 2 c" ["/d 3 r"]
             eq_refl eq_refl eq_refl eq_refl eq_refl _) "c" eq_refl _ _);
      [repeat (constructor; [repeat split; auto|]); constructor
      | discriminate | discriminate].
Defined.

Lemma find_paths_kitti_test_set_witness :
  exists msg,
    find_paths (directory_runtime ["/d 1 l"])
               (directory_args "/data" KITTI true 18)
      = (Raise (TypeError msg), []).
Proof.
  refine (proj2 (proj2 (find_paths_kitti_test_set
            (directory_runtime ["/d 1 l"]) (directory_args "/data" KITTI true 18)
            ["/d 1 l"] eq_refl eq_refl eq_refl eq_refl eq_refl))
          "/d" "1" "l" [] eq_refl eq_refl eq_refl _).
  set_solver.
Defined.

(** On the small runtimes every path that opens is ready. *)
Lemma directory_frame_ready (lines : list string) (kind : dataset_kind) (p : string) :
  Str.endswith "_disp.jpg" p = false ->
  Str.endswith "missing.jpg" p = false ->
  frame_ready (directory_runtime lines) (directory_args "/data" kind true 18)
              4 2 (fun x => x) Demo.red p.
Proof.
  intros Hs Hm. split; [exact Hs|]. exists (Demo.gradient 8 6).
  cbn [directory_runtime pil_open]. rewrite Hm. split; [reflexivity|].
  cbv zeta. split.
  - destruct kind; vm_compute; discriminate.
  - destruct kind; vm_compute; reflexivity.
Qed.

Lemma loop_writes_one_pair_per_image_witness :
  exists t,
    predict_loop (directory_runtime []) (directory_args "/data" OXFORD true 18)
                 4 2 (fun x => x) Demo.red "/out" 3 0
                 ["/d/left/1.jpg"; "/d/left/1_disp.jpg"; "/d/right/2.jpg"]
      = (Ok tt, t) /\
    map fst (npy_saves t) = ["/out/1_disp.npy"; "/out/2_disp.npy"] /\
    map fst (image_saves t) = ["/out/1_disp.jpeg"; "/out/2_disp.jpeg"].
Proof.
  apply (loop_writes_one_pair_per_image
           (directory_runtime []) (directory_args "/data" OXFORD true 18)
           4 2 (fun x => x) Demo.red "/out" 3
           ["/d/left/1.jpg"; "/d/left/1_disp.jpg"; "/d/right/2.jpg"] 0).
  repeat constructor; now apply directory_frame_ready.
Defined.

Lemma loop_stops_at_unreadable_image_witness :
  exists t,
    predict_loop (directory_runtime []) (directory_args "/data" OXFORD true 18)
                 4 2 (fun x => x) Demo.red "/out" 3 0
                 ["/d/left/1.jpg"; "/d/left/missing.jpg"; "/d/right/2.jpg"]
      = (Raise (ExternalError "cannot open"), t) /\
    map fst (npy_saves t) = ["/out/1_disp.npy"] /\
    map fst (image_saves t) = ["/out/1_disp.jpeg"].
Proof.
  apply (loop_stops_at_unreadable_image
           (directory_runtime []) (directory_args "/data" OXFORD true 18)
           4 2 (fun x => x) Demo.red "/out" 3
           ["/d/left/1.jpg"] ["/d/right/2.jpg"] "/d/left/missing.jpg"
           (ExternalError "cannot open") 0);
    [|reflexivity | reflexivity].
  repeat constructor; now apply directory_frame_ready.
Defined.

Lemma directory_model_loads (lines : list string) (path : string)
    (kind : dataset_kind) (test_set : bool) :
  model_loads (directory_runtime lines) (directory_args path kind test_set 18)
              "oxford" 2 4 (fun x => x) Demo.red.
Proof. unfold model_loads. cbv zeta. repeat split; try reflexivity. now left. Qed.

Lemma run_on_directory_without_test_set_witness :
  run_model (directory_runtime []) (directory_args "/data" OXFORD false 18)
            "oxford" Cpu
    = (Ok tt,
       [Print [PStr "-> Loading model from "; PStr "models/oxford"];
        Print [PStr "   Loading pretrained encoder"];
        Print [PStr "   Loading pretrained decoder"];
        Makedirs "/home/radice/neuralNetworks/results/monodepth2/OXFORD/m/r";
        Print [PStr "-> Predicting on 0 test images"];
        Print [PStr "-> Done!"]]).
Proof.
  exact (run_on_directory_without_test_set
           (directory_runtime []) (directory_args "/data" OXFORD false 18) "oxford"
           2 4 (fun x => x) Demo.red
           (directory_model_loads [] "/data" OXFORD false) eq_refl eq_refl eq_refl).
Defined.

Lemma run_on_oxford_test_set_witness :
  exists t,
    run_model (directory_runtime ["/d 1 l"; "/d 2 r"])
              (directory_args "/data" OXFORD true 18) "oxford" Cpu = (Ok tt, t) /\
    map fst (npy_saves t) =
      ["/home/radice/neuralNetworks/results/monodepth2/OXFORD/m/r/1_disp.npy";
       "/home/radice/neuralNetworks/results/monodepth2/OXFORD/m/r/2_disp.npy"].
Proof.
  destruct (run_on_oxford_test_set
              (directory_runtime ["/d 1 l"; "/d 2 r"])
              (directory_args "/data" OXFORD true 18) "oxford"
              2 4 (fun x => x) Demo.red [("/d", "1", "l"); ("/d", "2", "r")]
              (directory_model_loads _ "/data" OXFORD true)
              eq_refl eq_refl eq_refl eq_refl eq_refl)
    as (t & Ht & Hn & _).
  - repeat (constructor; [repeat split; auto|]). constructor.
  - repeat constructor; now apply directory_frame_ready.
  - exists t. split; [exact Ht | exact Hn].
Defined.


Lemma run_with_unknown_resnet_witness :
  run_model (directory_runtime []) (directory_args "/data" OXFORD false 34)
            "oxford" Cpu
    = (Raise (Exception "Can not find resnet 34"),
       [Print [PStr "-> Loading model from "; PStr "models/oxford"];
        Print [PStr "   Loading pretrained encoder"]]).
Proof.
  exact (run_with_unknown_resnet
           (directory_runtime []) (directory_args "/data" OXFORD false 34) "oxford"
           eq_refl ltac:(discriminate) ltac:(discriminate)).
Defined.

Lemma stem_of_plain_path_witness : stem "/data/left/0001.jpg" = "0001".
Proof.
  exact (stem_of_plain_path "/data/left" "0001" "jpg"
           ltac:(discriminate) eq_refl eq_refl eq_refl eq_refl).
Defined.

Lemma same_file_name_same_output_witness :
  exists f1 f2 t1 t2,
    predict_image (directory_runtime []) (directory_args "/data" OXFORD true 18)
                  4 2 (fun x => x) Demo.red "/out" 2 0 "/data/left/0001.jpg"
      = (Ok (Some f1), t1) /\
    predict_image (directory_runtime []) (directory_args "/data" OXFORD true 18)
                  4 2 (fun x => x) Demo.red "/out" 2 1 "/data/right/0001.jpg"
      = (Ok (Some f2), t2) /\
    map fst (npy_saves t1) = map fst (npy_saves t2) /\
    map fst (image_saves t1) = map fst (image_saves t2).
Proof.
  destruct (predict_image_ready
              (directory_runtime []) (directory_args "/data" OXFORD true 18)
              4 2 (fun x => x) Demo.red "/out" 2 0 "/data/left/0001.jpg"
              (directory_frame_ready [] OXFORD "/data/left/0001.jpg" eq_refl eq_refl)) as (f1 & H1 & _).
  destruct (predict_image_ready
              (directory_runtime []) (directory_args "/data" OXFORD true 18)
              4 2 (fun x => x) Demo.red "/out" 2 1 "/data/right/0001.jpg"
              (directory_frame_ready [] OXFORD "/data/right/0001.jpg" eq_refl eq_refl)) as (f2 & H2 & _).
  exists f1, f2; do 2 eexists.
  split; [exact H1|]. split; [exact H2|].
  exact (same_file_name_same_output
           (directory_runtime []) (directory_args "/data" OXFORD true 18)
           4 2 (fun x => x) Demo.red "/out" 2 0 1
           "/data/left" "/data/right" "0001.jpg" f1 f2 _ _ eq_refl H1 H2).
Defined.

Lemma shown_values_normalized_witness :
  exists f t x,
    Demo.iteration OXFORD false = (Ok (Some f), t) /\
    x ∈ flatten (f_disp_resized f) /\
    (0 <= normalize (f_normalizer f) x)%Q /\
    (x <= vmax (f_normalizer f) -> normalize (f_normalizer f) x <= 1)%Q.
Proof.
  destruct (demo_iteration_runs OXFORD false) as [f E].
  destruct (predict_image_inv _ _ _ _ _ _ _ _ _ _ f _ E)
    as (_ & _ & _ & _ & _ & _ & _ & _ & _ & _ & _ & _ & Hm & _).
  destruct (amin_spec _ _ Hm) as [Hx _].
  exists f; eexists; exists (vmin (f_normalizer f)).
  split; [exact E|]. split; [exact Hx|].
  destruct (shown_values_normalized
              Demo.rt (Demo.args_of OXFORD "oxford" false) 4 2 (fun x => x) Demo.red
              "/out" 1 0 "/data/left/0001.jpg" f _ (vmin (f_normalizer f)) E Hx)
    as (H0 & H1 & _).
  split; [exact H0 | exact H1].
Defined.

Lemma get_color_crops_and_never_flips_witness :
  OxfordLoader.get_color (init ".jpg") (fun _ => Ok (Demo.gradient 1280 960))
                         (Some Pil.crop) "/data" "0001" "r" true
    = Ok (Pil.crop (Demo.gradient 1280 960) (0, 300, 1280, 760)) /\
  OxfordLoader.get_color (init ".jpg") (fun _ => Ok (Demo.gradient 1280 960))
                         (Some Pil.crop) "/data" "0001" "c" true
    = Raise (KeyError "c").
Proof.
  destruct (get_color_crops_and_never_flips
              ".jpg" (fun _ => Ok (Demo.gradient 1280 960)) Pil.crop
              "/data" "0001" "r" true) as (_ & _ & Hr).
  destruct (get_color_crops_and_never_flips
              ".jpg" (fun _ => Ok (Demo.gradient 1280 960)) Pil.crop
              "/data" "0001" "c" true) as (_ & Hc & _).
  split.
  - exact (proj2 (Hr "right" (or_intror (conj eq_refl eq_refl))) _ eq_refl).
  - apply Hc; discriminate.
Defined.

Lemma one_pixel_image_fails_after_npy_witness :
  predict_image Demo.rt (Demo.args_crop (0, 1, 8, 2) false) 4 2
                (fun x => x) (Demo.constant Demo.spike)
                "/out" 1 0 "/data/left/0001.jpg"
    = (Raise IndexError,
       [NpSave "/out/0001_disp.npy"
          [[251 # 125; 1.009; 3.007; 1.009]; [1.009; 9.001; 251 # 125; 1.009]]%Q]).
Proof.
  destruct (one_pixel_image_fails_after_npy
              Demo.rt (Demo.args_crop (0, 1, 8, 2) false) 4 2
              (fun x => x) (Demo.constant Demo.spike)
              "/out" 1 0 "/data/left/0001.jpg" (Demo.gradient 8 6)
              eq_refl eq_refl ltac:(vm_compute; discriminate) ltac:(vm_compute; discriminate))
    as (e & H & He).
  rewrite H, (He eq_refl). vm_compute. reflexivity.
Defined.

End Witnesses.
